(** * HMTL: program manager and message handler

    A shallow embedding of the classes [ProgramManager] and
    [MessageHandler] (the implementation of ProgramManager.h): the
    per-output program trackers, the scheduler tick, and the dispatch and
    forwarding of protocol messages between the serial port and the bus
    sockets.

    Values of the C integer types are integers ([Z]); arrays are lists read
    and written by index; a pointer that may be NULL is an [option].  Calls
    that leave the module (the serial port, a socket's [sendMsgTo], [delay],
    [malloc] and [free], and the setup and step functions of a program) are
    recorded, in order, in a trace. *)

From stdpp Require Import base list strings.
From Stdlib Require Import ZArith Lia.

Local Open Scope Z_scope.

(** ** Outcomes of a call

    A call either returns or runs into undefined behaviour: a read or
    write through a NULL pointer, or outside an array. *)

Inductive fault : Type :=
| NullPointer
| OutOfBounds.

Inductive outcome (A : Type) : Type :=
| Ok (a : A)
| Fault (f : fault).

Arguments Ok {A} a.
Arguments Fault {A} f.

Definition is_ok {A : Type} (r : outcome A) : bool :=
  match r with Ok _ => true | Fault _ => false end.

(** ** Constants of the headers

    The macros that the code takes from the headers it includes
    (HMTLProtocol.h, HMTLPrograms.h, ProgramManager.h and the socket
    library), and the width of the platform's [int], which is 16 bits or
    more.  The labels of one [switch] are pairwise different. *)

Class Headers : Type := {
  HMTL_MSG_VERSION : Z;
  SOCKET_ADDR_ANY : Z;
  MSG_FLAG_ACK : Z;
  MSG_TYPE_OUTPUT : Z;
  MSG_TYPE_POLL : Z;
  MSG_TYPE_SET_ADDR : Z;
  MSG_TYPE_SENSOR : Z;
  HMTL_OUTPUT_PROGRAM : Z;
  HMTL_PROGRAM_NONE : Z;
  PROGRAM_SENSOR_DATA : Z;
  PROGRAM_TRACKER_DONE : Z;
  OBJECT_TYPE : Z;
  HMTL_ACK : string;
  INT_BITS : Z;
  INT_BITS_min : 16 <= INT_BITS;
  case_labels_distinct :
    NoDup [MSG_TYPE_OUTPUT; MSG_TYPE_POLL; MSG_TYPE_SET_ADDR; MSG_TYPE_SENSOR]
}.

(** ** Data *)

(** The memory behind a [void *], as bytes. *)
Definition blob : Type := list Z.

(** [output_hdr_t]: the header of an output's configuration, with the
    type-specific part that follows it in memory. *)
Record output_hdr_t : Type := {
  oh_type : Z;
  oh_output : Z;
  oh_data : blob
}.

(** [msg_program_t]: an output header, the program's type and its values. *)
Record msg_program_t : Type := {
  mp_hdr : output_hdr_t;
  mp_type : Z;
  mp_values : blob
}.

(** [program_tracker_t].  [pt_program] is the pointer into the table of
    programs, kept as the index of the entry it points to. *)
Record program_tracker_t : Type := {
  pt_program : nat;
  pt_flags : Z;
  pt_state : option blob
}.

(** What a step function leaves behind its three pointer arguments (used
    where the pointer was not NULL), and the boolean it returns. *)
Record step_result : Type := {
  sr_changed : bool;
  sr_output : option output_hdr_t;
  sr_object : option blob;
  sr_tracker : option program_tracker_t
}.

Definition hmtl_program_func : Type :=
  option output_hdr_t -> option blob -> option program_tracker_t -> step_result.

Definition hmtl_program_setup : Type :=
  msg_program_t -> program_tracker_t -> bool * program_tracker_t.

(** [hmtl_program_t]: an entry of the table of programs.  Both function
    pointers may be NULL. *)
Record hmtl_program_t : Type := {
  prog_type : Z;
  program : option hmtl_program_func;
  setup : option hmtl_program_setup
}.

Record ProgramManager : Type := {
  outputs : list (option output_hdr_t);
  trackers : list (option program_tracker_t);
  objects : list (option blob);
  num_outputs : Z;
  functions : list hmtl_program_t;
  num_programs : Z
}.

(** [msg_hdr_t] *)
Record msg_hdr_t : Type := {
  hdr_version : Z;
  hdr_length : Z;
  hdr_type : Z;
  hdr_flags : Z;
  hdr_address : Z
}.

(** [msg_set_addr_t] *)
Record msg_set_addr_t : Type := {
  sa_device_id : Z;
  sa_address : Z
}.

(** A received message: its header, the bytes of the buffer it lies in
    (from the header on), and the memory after the header ([msg_hdr + 1])
    as each handler casts it. *)
Record message : Type := {
  msg_hdr : msg_hdr_t;
  msg_raw : list Z;
  msg_program : msg_program_t;
  msg_set_addr : msg_set_addr_t;
  msg_sensors : list blob
}.

(** The part of [config_hdr_t] that is read here. *)
Record config_hdr_t : Type := {
  cfg_address : Z;
  device_id : Z;
  cfg_num_outputs : Z
}.

(** The fields of a [Socket] that are used here. *)
Record Socket : Type := {
  send_buffer : list Z;
  send_data_size : Z;
  recvLimit : Z;
  sourceAddress : Z
}.

(** [MessageHandler].  [manager] is the object behind the pointer;
    [sockets] is the array of pointers, each with the socket it points to. *)
Record MessageHandler : Type := {
  address : Z;
  manager : ProgramManager;
  sockets : list (option Socket);
  num_sockets : Z;
  serial_msg_offset : Z;
  last_serial_ms : Z;
  last_ready_ms : Z
}.

(** Functions of the HMTL libraries that are called here and defined
    elsewhere. *)
Class Externals : Type := {
  (** [hmtl_handle_output_msg(msg_hdr, num_outputs, outputs, objects)]:
      the outputs and objects it leaves. *)
  hmtl_handle_output_msg :
    message -> Z -> list (option output_hdr_t) -> list (option blob) ->
    list (option output_hdr_t) * list (option blob);
  (** [hmtl_poll_fmt(buffer, size, source_address, flags, object_type,
      config, outputs, recv_limit)]: the length it returns and the buffer
      it leaves. *)
  hmtl_poll_fmt :
    list Z -> Z -> Z -> Z -> Z -> config_hdr_t ->
    list (option output_hdr_t) -> Z -> Z * list Z;
  (** [Socket::sourceFromData] *)
  sourceFromData : Socket -> message -> Z
}.

(** ** Trace *)

Inductive event : Type :=
| EvMalloc (slot : Z)
| EvFreeState (slot : Z)
| EvFreeTracker (slot : Z)
| EvSetup (prog : nat) (msg : msg_program_t) (slot : Z) (t : program_tracker_t)
| EvStep (prog : nat) (slot : option Z) (obj : option blob)
| EvSerialWrite (data : list Z)
| EvSerialPrintln (s : string)
| EvSendMsgTo (sock : nat) (dest : Z) (data : list Z)
| EvDelay (ms : Z)
| EvDebugValue (s : string) (v : Z)
| EvDebugErr (s : string).

(** ** The world and the monad

    [junk] is what a block fresh from [malloc] holds. *)
Record world : Type := {
  handler : MessageHandler;
  trace : list event;
  junk : program_tracker_t
}.

Definition M (A : Type) : Type := world -> outcome A * world.

Definition ret {A : Type} (a : A) : M A := fun w => (Ok a, w).

Definition bind {A B : Type} (m : M A) (k : A -> M B) : M B :=
  fun w => match m w with
           | (Ok a, w') => k a w'
           | (Fault f, w') => (Fault f, w')
           end.

Definition crash {A : Type} (f : fault) : M A := fun w => (Fault f, w).

Definition gets {A : Type} (f : MessageHandler -> A) : M A :=
  fun w => (Ok (f (handler w)), w).

Definition modify (f : MessageHandler -> MessageHandler) : M unit :=
  fun w => (Ok tt, {| handler := f (handler w); trace := trace w; junk := junk w |}).

Definition emit (e : event) : M unit :=
  fun w => (Ok tt, {| handler := handler w; trace := trace w ++ [e]; junk := junk w |}).

Definition malloc_tracker (slot : Z) : M program_tracker_t :=
  fun w => (Ok (junk w),
            {| handler := handler w; trace := trace w ++ [EvMalloc slot]; junk := junk w |}).

Definition lift {A : Type} (r : outcome A) : M A := fun w => (r, w).

#[global] Instance M_ret : MRet M := @ret.
#[global] Instance M_bind : MBind M := fun A B k m => bind m k.

(** ** Arrays and pointers *)

(** [arr[i]] as an rvalue. *)
Definition load {A : Type} (arr : list A) (i : Z) : outcome A :=
  if i <? 0 then Fault OutOfBounds
  else match arr !! Z.to_nat i with
       | Some x => Ok x
       | None => Fault OutOfBounds
       end.

(** [arr[i] = x]. *)
Definition store {A : Type} (arr : list A) (i : Z) (x : A) : outcome (list A) :=
  if i <? 0 then Fault OutOfBounds
  else match arr !! Z.to_nat i with
       | Some _ => Ok (<[Z.to_nat i := x]> arr)
       | None => Fault OutOfBounds
       end.

(** [*p], for a pointer that may be NULL. *)
Definition nonnull {A : Type} (p : option A) : outcome A :=
  match p with
  | Some x => Ok x
  | None => Fault NullPointer
  end.

(** ** Field updates *)

Definition set_trackers (ts : list (option program_tracker_t)) (pm : ProgramManager)
  : ProgramManager :=
  {| outputs := outputs pm; trackers := ts; objects := objects pm;
     num_outputs := num_outputs pm; functions := functions pm;
     num_programs := num_programs pm |}.

Definition set_outputs (os : list (option output_hdr_t)) (pm : ProgramManager)
  : ProgramManager :=
  {| outputs := os; trackers := trackers pm; objects := objects pm;
     num_outputs := num_outputs pm; functions := functions pm;
     num_programs := num_programs pm |}.

Definition set_objects (bs : list (option blob)) (pm : ProgramManager)
  : ProgramManager :=
  {| outputs := outputs pm; trackers := trackers pm; objects := bs;
     num_outputs := num_outputs pm; functions := functions pm;
     num_programs := num_programs pm |}.

Definition set_manager (pm : ProgramManager) (h : MessageHandler) : MessageHandler :=
  {| address := address h; manager := pm; sockets := sockets h;
     num_sockets := num_sockets h; serial_msg_offset := serial_msg_offset h;
     last_serial_ms := last_serial_ms h; last_ready_ms := last_ready_ms h |}.

Definition set_address (a : Z) (h : MessageHandler) : MessageHandler :=
  {| address := a; manager := manager h; sockets := sockets h;
     num_sockets := num_sockets h; serial_msg_offset := serial_msg_offset h;
     last_serial_ms := last_serial_ms h; last_ready_ms := last_ready_ms h |}.

Definition set_sockets (ss : list (option Socket)) (h : MessageHandler) : MessageHandler :=
  {| address := address h; manager := manager h; sockets := ss;
     num_sockets := num_sockets h; serial_msg_offset := serial_msg_offset h;
     last_serial_ms := last_serial_ms h; last_ready_ms := last_ready_ms h |}.

Definition set_serial_msg_offset (offset : Z) (h : MessageHandler) : MessageHandler :=
  {| address := address h; manager := manager h; sockets := sockets h;
     num_sockets := num_sockets h; serial_msg_offset := offset;
     last_serial_ms := last_serial_ms h; last_ready_ms := last_ready_ms h |}.

Definition set_serial_received (now : Z) (h : MessageHandler) : MessageHandler :=
  {| address := address h; manager := manager h; sockets := sockets h;
     num_sockets := num_sockets h; serial_msg_offset := 0;
     last_serial_ms := now; last_ready_ms := last_ready_ms h |}.

Definition set_last_ready_ms (now : Z) (h : MessageHandler) : MessageHandler :=
  {| address := address h; manager := manager h; sockets := sockets h;
     num_sockets := num_sockets h; serial_msg_offset := serial_msg_offset h;
     last_serial_ms := last_serial_ms h; last_ready_ms := now |}.

Definition set_send_buffer (b : list Z) (s : Socket) : Socket :=
  {| send_buffer := b; send_data_size := send_data_size s;
     recvLimit := recvLimit s; sourceAddress := sourceAddress s |}.

Definition set_sourceAddress (a : Z) (s : Socket) : Socket :=
  {| send_buffer := send_buffer s; send_data_size := send_data_size s;
     recvLimit := recvLimit s; sourceAddress := a |}.

Definition set_program_flags (p : nat) (f : Z) (t : program_tracker_t)
  : program_tracker_t :=
  {| pt_program := p; pt_flags := f; pt_state := pt_state t |}.

(** [trackers[i] = t], [outputs[i] = o] and [objects[i] = b] of the manager. *)
Definition write_tracker (i : Z) (t : option program_tracker_t) : M unit :=
  pm ← gets manager;
  ts ← lift (store (trackers pm) i t);
  modify (set_manager (set_trackers ts pm)).

Definition write_output (i : Z) (o : option output_hdr_t) : M unit :=
  pm ← gets manager;
  os ← lift (store (outputs pm) i o);
  modify (set_manager (set_outputs os pm)).

Definition write_object (i : Z) (b : option blob) : M unit :=
  pm ← gets manager;
  bs ← lift (store (objects pm) i b);
  modify (set_manager (set_objects bs pm)).

(** ** ProgramManager *)

Section ProgramManager.
Context `{Headers}.

(** The loop of [lookup_function], [n] iterations from index [i] on. *)
Fixpoint lookup_from (fs : list hmtl_program_t) (id : Z) (n : nat) (i : Z)
  : outcome (option nat) :=
  match n with
  | O => Ok None
  | S n' =>
      match load fs i with
      | Ok f =>
          if prog_type f =? id then Ok (Some (Z.to_nat i))
          else lookup_from fs id n' (i + 1)
      | Fault e => Fault e
      end
  end.

(** [ProgramManager::lookup_function]: the pointer to the first entry of
    the given type, or NULL. *)
Definition lookup_function (id : Z) (pm : ProgramManager) : outcome (option nat) :=
  lookup_from (functions pm) id (Z.to_nat (num_programs pm)) 0.

(** [ProgramManager::free_tracker] *)
Definition free_tracker (index : Z) : M unit :=
  pm ← gets manager;
  tracker ← lift (load (trackers pm) index);
  match tracker with
  | Some t =>
      match pt_state t with
      | Some _ => emit (EvFreeState index)
      | None => mret tt
      end;;
      emit (EvFreeTracker index)
  | None => mret tt
  end;;
  write_tracker index None.

(** [ProgramManager::handle_msg] *)
Definition handle_msg (msg : msg_program_t) : M bool :=
  pm ← gets manager;
  program ← lift (lookup_function (mp_type msg) pm);
  match program with
  | None =>
      emit (EvDebugValue "handle_msg: invalid type: " (mp_type msg));;
      mret false
  | Some p =>
      let output := oh_output (mp_hdr msg) in
      if num_outputs pm <? output then
        emit (EvDebugValue "handle_msg: invalid output: " output);;
        mret false
      else
        out ← lift (load (outputs pm) output);
        match out with
        | None =>
            emit (EvDebugValue "handle_msg: NULL output: " output);;
            mret false
        | Some _ =>
            tracker ← lift (load (trackers pm) output);
            entry ← lift (load (functions pm) (Z.of_nat p));
            if prog_type entry =? HMTL_PROGRAM_NONE then
              free_tracker output;;
              mret true
            else
              t ← match tracker with
                  | Some t =>
                      match pt_state t with
                      | Some _ => emit (EvFreeState output)
                      | None => mret tt
                      end;;
                      mret t
                  | None =>
                      t ← malloc_tracker output;
                      write_tracker output (Some t);;
                      mret t
                  end;
              let t0 := set_program_flags p 0 t in
              write_tracker output (Some t0);;
              f ← lift (nonnull (setup entry));
              emit (EvSetup p msg output t0);;
              write_tracker output (Some (f msg t0).2);;
              mret true
        end
  end.

(** The body of the loop of [run], for output [i]: the value of
    [updated] after it. *)
Definition run_output (i : Z) (updated : bool) : M bool :=
  pm ← gets manager;
  tracker ← lift (load (trackers pm) i);
  match tracker with
  | Some t =>
      if negb (Z.land (pt_flags t) PROGRAM_TRACKER_DONE =? 0) then
        free_tracker i;;
        mret updated
      else
        entry ← lift (load (functions pm) (Z.of_nat (pt_program t)));
        f ← lift (nonnull (program entry));
        out ← lift (load (outputs pm) i);
        obj ← lift (load (objects pm) i);
        emit (EvStep (pt_program t) (Some i) obj);;
        let r := f out obj (Some t) in
        write_output i (from_option Some out (sr_output r));;
        write_object i (from_option Some obj (sr_object r));;
        write_tracker i (Some (default t (sr_tracker r)));;
        mret (if sr_changed r then true else updated)
  | None => mret updated
  end.

(** The loop of [run], [n] iterations from output [i] on. *)
Fixpoint run_from (n : nat) (i : Z) (updated : bool) : M bool :=
  match n with
  | O => mret updated
  | S n' =>
      u ← run_output i updated;
      run_from n' (i + 1) u
  end.

(** [ProgramManager::run] *)
Definition run : M bool :=
  pm ← gets manager;
  run_from (Z.to_nat (num_outputs pm)) 0 false.

(** [ProgramManager::run_program] *)
Definition run_program (type : Z) (arg : option blob) : M bool :=
  pm ← gets manager;
  found ← lift (lookup_function type pm);
  p ← lift (nonnull found);
  entry ← lift (load (functions pm) (Z.of_nat p));
  f ← lift (nonnull (program entry));
  emit (EvStep p None arg);;
  mret false.

End ProgramManager.

(** *** The constructor

    Of [ProgramManager::ProgramManager], the state it leaves. *)

(** The loop of the constructor of [ProgramManager]: [trackers[i] = NULL],
    for [n] entries from entry [i] on. *)
Fixpoint clear_from (ts : list (option program_tracker_t)) (n : nat) (i : Z)
  : outcome (list (option program_tracker_t)) :=
  match n with
  | O => Ok ts
  | S n' =>
      match store ts i None with
      | Ok ts' => clear_from ts' n' (i + 1)
      | Fault f => Fault f
      end
  end.

(** [ProgramManager::ProgramManager], from the arrays it is given.  What it
    prints at debug level 3 is not part of the trace. *)
Definition new_ProgramManager (_outputs : list (option output_hdr_t))
    (_trackers : list (option program_tracker_t)) (_objects : list (option blob))
    (_num_outputs : Z) (_functions : list hmtl_program_t) (_num_programs : Z)
  : outcome ProgramManager :=
  match clear_from _trackers (Z.to_nat _num_outputs) 0 with
  | Ok ts =>
      Ok {| outputs := _outputs; trackers := ts; objects := _objects;
            num_outputs := _num_outputs; functions := _functions;
            num_programs := _num_programs |}
  | Fault f => Fault f
  end.

(** ** MessageHandler *)

(** [memcpy(dst, src, n)]: the destination afterwards. *)
Definition memcpy (dst src : list Z) (n : Z) : list Z :=
  take (Z.to_nat n) src ++ drop (Z.to_nat n) dst.

(** The first [len] bytes of a buffer, as [Serial.write(buf, len)] and
    [sendMsgTo(address, buf, len)] read them. *)
Definition bytes_of (buf : list Z) (len : Z) : list Z := take (Z.to_nat len) buf.

(** [sockets[i]] as a pointer: the index of the socket it points to, or
    NULL. *)
Definition socket_at (i : Z) : M (option nat) :=
  ss ← gets sockets;
  s ← lift (load ss i);
  mret (match s with Some _ => Some (Z.to_nat i) | None => None end).

(** The socket behind a pointer. *)
Definition deref (p : option nat) : M (nat * Socket) :=
  k ← lift (nonnull p);
  ss ← gets sockets;
  match ss !! k with
  | Some (Some s) => mret (k, s)
  | _ => crash NullPointer
  end.

Definition update_socket (k : nat) (s : Socket) : M unit :=
  modify (fun h => set_sockets (<[k := Some s]> (sockets h)) h).

Section MessageHandler.
Context `{Headers} `{Externals}.

(** Conversion to the platform's [int]. *)
Definition to_int (x : Z) : Z :=
  let m := x mod 2 ^ INT_BITS in
  if m <? 2 ^ (INT_BITS - 1) then m else m - 2 ^ INT_BITS.

(** [int delayMs = address * 2] *)
Definition delayMs (a : Z) : Z := to_int (a * 2).

(** [MessageHandler::check_and_forward] *)
Definition check_and_forward (msg : message) (socket : option nat) : M bool :=
  a ← gets address;
  let hdr := msg_hdr msg in
  if negb (hdr_address hdr =? a) || (hdr_address hdr =? SOCKET_ADDR_ANY) then
    '(k, s) ← deref socket;
    if send_data_size s <? hdr_length hdr then
      emit (EvDebugValue "Message larger than send buffer:" (hdr_length hdr));;
      mret false
    else
      let buf := memcpy (send_buffer s) (msg_raw msg) (hdr_length hdr) in
      update_socket k (set_send_buffer buf s);;
      emit (EvSendMsgTo k (hdr_address hdr) (bytes_of buf (hdr_length hdr)));;
      mret true
  else mret false.

(** The loop over the sensor readings of a message. *)
Fixpoint sensor_loop (sensors : list blob) : M unit :=
  match sensors with
  | [] => mret tt
  | sensor :: rest =>
      run_program PROGRAM_SENSOR_DATA (Some sensor);;
      sensor_loop rest
  end.

(** The [switch (msg_hdr->type)] of [process_msg], with what follows it. *)
Definition dispatch (msg : message) (src serial_socket : option nat)
    (config : config_hdr_t) : M bool :=
  let hdr := msg_hdr msg in
  if hdr_type hdr =? MSG_TYPE_OUTPUT then
    (if oh_type (mp_hdr (msg_program msg)) =? HMTL_OUTPUT_PROGRAM then
       handle_msg (msg_program msg);;
       mret tt
     else
       pm ← gets manager;
       let r := hmtl_handle_output_msg msg (num_outputs pm) (outputs pm) (objects pm) in
       modify (set_manager (set_objects r.2 (set_outputs r.1 pm))));;
    mret true
  else if hdr_type hdr =? MSG_TYPE_POLL then
    source_address ← match src with
                      | Some _ => '(_, s) ← deref src; mret (sourceFromData s msg)
                      | None => mret 0
                      end;
    let sock := match src with Some _ => src | None => serial_socket end in
    '(j, s) ← deref sock;
    pm ← gets manager;
    let r := hmtl_poll_fmt (send_buffer s) (send_data_size s) source_address
               (hdr_flags hdr) OBJECT_TYPE config (outputs pm) (recvLimit s) in
    update_socket j (set_send_buffer r.2 s);;
    match src with
    | Some k =>
        (if hdr_address hdr =? SOCKET_ADDR_ANY then
           a ← gets address;
           emit (EvDelay (delayMs a))
         else mret tt);;
        emit (EvSendMsgTo k source_address (bytes_of r.2 r.1))
    | None => emit (EvSerialWrite (bytes_of r.2 r.1))
    end;;
    mret false
  else if hdr_type hdr =? MSG_TYPE_SET_ADDR then
    let set_addr := msg_set_addr msg in
    (if (sa_device_id set_addr =? 0) || (sa_device_id set_addr =? device_id config) then
       modify (set_address (sa_address set_addr));;
       a ← gets address;
       '(k, s) ← deref src;
       update_socket k (set_sourceAddress a s)
     else mret tt);;
    mret false
  else if hdr_type hdr =? MSG_TYPE_SENSOR then
    (if negb (Z.land (hdr_flags hdr) MSG_FLAG_ACK =? 0) then
       sensor_loop (msg_sensors msg)
     else mret tt);;
    mret false
  else mret false.

(** [MessageHandler::process_msg] *)
Definition process_msg (msg : message) (src serial_socket : option nat)
    (config : config_hdr_t) : M bool :=
  let hdr := msg_hdr msg in
  if negb (hdr_version hdr =? HMTL_MSG_VERSION) then
    emit (EvDebugErr "Invalid message version");;
    mret false
  else
    a ← gets address;
    if (hdr_address hdr =? a) || (hdr_address hdr =? SOCKET_ADDR_ANY) then
      if negb (Z.land (hdr_flags hdr) MSG_FLAG_ACK =? 0)
         && negb (hdr_address hdr =? SOCKET_ADDR_ANY) then
        emit (EvSerialWrite (bytes_of (msg_raw msg) (hdr_length hdr)));;
        if negb (hdr_type hdr =? MSG_TYPE_SENSOR) then mret false
        else dispatch msg src serial_socket config
      else dispatch msg src serial_socket config
    else mret false.

(** The body of the forwarding loop of [check_serial], for socket [i]. *)
Definition forward_to (msg : message) (i : Z) : M unit :=
  p ← socket_at i;
  match p with
  | Some _ => check_and_forward msg p;; mret tt
  | None => mret tt
  end.

(** The forwarding loop of [check_serial], [n] iterations from socket
    [i] on. *)
Fixpoint forward_from (msg : message) (n : nat) (i : Z) : M unit :=
  match n with
  | O => mret tt
  | S n' =>
      forward_to msg i;;
      forward_from msg n' (i + 1)
  end.

(** [MessageHandler::check_serial].  The call of [hmtl_serial_getmsg]
    reads what the serial port has into the buffer [serial_msg] and moves
    [serial_msg_offset], whether the message is complete or not: [offset]
    is the value it leaves there, [rx] the complete message in the buffer,
    if there is one, and [now] what [time.ms()] returns. *)
Definition check_serial (rx : option message) (offset now : Z)
    (config : config_hdr_t) : M bool :=
  modify (set_serial_msg_offset offset);;
  match rx with
  | Some msg =>
      emit (EvSerialPrintln HMTL_ACK);;
      n ← gets num_sockets;
      forward_from msg (Z.to_nat n) 0;;
      serial_socket ← socket_at 0;
      update ← process_msg msg None serial_socket config;
      modify (set_serial_received now);;
      mret update
  | None => mret false
  end.

(** [MessageHandler::check_socket].  [rx] is the message that
    [hmtl_socket_getmsg] returns for the socket, if any. *)
Definition check_socket (rx : option message) (socket serial_socket : option nat)
    (config : config_hdr_t) : M bool :=
  match rx with
  | Some msg =>
      r ← process_msg msg socket serial_socket config;
      mret (if r : bool then true else false)
  | None => mret false
  end.

(** The loop over the sockets of [check]. *)
Fixpoint check_from (rx : Z -> option message) (config : config_hdr_t)
    (n : nat) (i : Z) (update : bool) : M bool :=
  match n with
  | O => mret update
  | S n' =>
      p ← socket_at i;
      match p with
      | Some _ =>
          r ← check_socket (rx i) p p config;
          check_from rx config n' (i + 1) (if r : bool then true else update)
      | None => check_from rx config n' (i + 1) update
      end
  end.

(** [MessageHandler::check] *)
Definition check (rx_serial : option message) (offset now : Z)
    (rx : Z -> option message) (config : config_hdr_t) : M bool :=
  r ← check_serial rx_serial offset now config;
  n ← gets num_sockets;
  check_from rx config (Z.to_nat n) 0 (if r : bool then true else false).

End MessageHandler.

(** *** The constructor *)

(** [MessageHandler::MessageHandler], with its four arguments. *)
Definition new_MessageHandler (_address : Z) (_manager : ProgramManager)
    (_sockets : list (option Socket)) (_num_sockets : Z) : MessageHandler :=
  {| address := _address; manager := _manager; sockets := _sockets;
     num_sockets := _num_sockets; serial_msg_offset := 0; last_serial_ms := 0;
     last_ready_ms := 0 |}.

(** *** serial_ready *)

(** The macros of [serial_ready], from the headers of the libraries, and
    the width of [unsigned long]. *)
Class ReadyHeaders : Type := {
  ULONG_BITS : Z;
  READY_THRESHOLD : Z;
  READY_RESEND_PERIOD : Z;
  HMTL_READY : string;
  READY_THRESHOLD_nonneg : 0 <= READY_THRESHOLD;
  READY_RESEND_PERIOD_nonneg : 0 <= READY_RESEND_PERIOD
}.

Section SerialReady.
Context `{ReadyHeaders}.

(** [a - b] in [unsigned long], the type of [now] and of the two times
    that the handler keeps. *)
Definition ulong_sub (a b : Z) : Z := (a - b) mod 2 ^ ULONG_BITS.

(** [MessageHandler::serial_ready].  [now] is what [time.ms()] returns. *)
Definition serial_ready (now : Z) : M unit :=
  h ← gets id;
  if (READY_THRESHOLD <? ulong_sub now (last_serial_ms h))
     && (READY_RESEND_PERIOD <? ulong_sub now (last_ready_ms h)) then
    emit (EvSerialPrintln HMTL_READY);;
    modify (set_last_ready_ms now)
  else mret tt.

End SerialReady.

(** * Vocabulary of the statements *)

(** ** Worlds and traces *)

(** The world with more events in its trace. *)
Definition logged (evs : list event) (w : world) : world :=
  {| handler := handler w; trace := trace w ++ evs; junk := junk w |}.

(** The world with another handler. *)
Definition with_handler (h : MessageHandler) (w : world) : world :=
  {| handler := h; trace := trace w; junk := junk w |}.

(** The world after the read of [check_serial]: the serial offset is the
    one that [hmtl_serial_getmsg] left. *)
Definition after_read (offset : Z) (w : world) : world :=
  with_handler (set_serial_msg_offset offset (handler w)) w.

(** Whatever the outcome, the trace only grows, by events that satisfy [P]. *)
Definition emits_only {A : Type} (P : event -> Prop) (m : M A) : Prop :=
  forall w, exists evs, trace (m w).2 = trace w ++ evs /\ Forall P evs.

(** Every event but a transmission on a socket. *)
Definition not_send (e : event) : Prop :=
  match e with
  | EvSendMsgTo _ _ _ => False
  | _ => True
  end.

(** The transmission that an event is, when it is one on socket [k]. *)
Definition sent_on (k : nat) (e : event) : option (Z * list Z) :=
  match e with
  | EvSendMsgTo j dest data => if decide (j = k) then Some (dest, data) else None
  | _ => None
  end.

(** The transmissions on socket [k] in a list of events, in order. *)
Definition sends_on (k : nat) (evs : list event) : list (Z * list Z) :=
  omap (sent_on k) evs.

(** The event is no transmission on socket [j]. *)
Definition not_send_on (j : nat) (e : event) : Prop := sent_on j e = None.

(** ** Trackers *)

(** The calls to [free] that releasing a slot makes. *)
Definition release_events (index : Z) (slot : option program_tracker_t) : list event :=
  match slot with
  | Some t =>
      match pt_state t with
      | Some _ => [EvFreeState index; EvFreeTracker index]
      | None => [EvFreeTracker index]
      end
  | None => []
  end.

(** The calls to [malloc] and [free] that [handle_msg] makes before it sets
    up a program in a slot. *)
Definition assign_events (index : Z) (slot : option program_tracker_t) : list event :=
  match slot with
  | Some t =>
      match pt_state t with
      | Some _ => [EvFreeState index]
      | None => []
      end
  | None => [EvMalloc index]
  end.

(** The setup function leaves the program pointer and the flags of the
    tracker as they are: it writes the state only. *)
Definition setup_keeps_header (f : hmtl_program_setup) : Prop :=
  forall m t, pt_program (f m t).2 = pt_program t /\ pt_flags (f m t).2 = pt_flags t.

Section Vocabulary.
Context `{Headers} `{Externals}.

(** The tracker is flagged [PROGRAM_TRACKER_DONE]. *)
Definition is_done (t : program_tracker_t) : bool :=
  negb (Z.land (pt_flags t) PROGRAM_TRACKER_DONE =? 0).

(** The step function of a tracker that is not done can be called. *)
Definition steppable (pm : ProgramManager) (slot : option program_tracker_t) : Prop :=
  forall t, slot = Some t -> is_done t = false ->
    exists entry f, functions pm !! pt_program t = Some entry /\ program entry = Some f.

(** The arrays cover the outputs [lo <= k < hi], and the trackers there
    can be stepped. *)
Definition runnable (lo hi : Z) (pm : ProgramManager) : Prop :=
  forall k, lo <= k < hi ->
    is_Some (outputs pm !! Z.to_nat k) /\ is_Some (objects pm !! Z.to_nat k) /\
    exists slot, trackers pm !! Z.to_nat k = Some slot /\ steppable pm slot.

(** The arrays cover the outputs and every tracker that is not done can
    be stepped. *)
Definition can_run (pm : ProgramManager) : Prop :=
  runnable 0 (num_outputs pm) pm.

(** What one iteration of the loop of [run] leaves. *)
Record iteration (i : Z) (slot : option program_tracker_t) (w w1 : world)
    (evs : list event) : Prop := {
  it_trace : trace w1 = trace w ++ evs;
  it_trackers : exists new,
    trackers (manager (handler w1)) =
      <[Z.to_nat i := new]> (trackers (manager (handler w))) /\
    (forall t, slot = Some t -> is_done t = true -> new = None);
  it_outputs : exists o,
    outputs (manager (handler w1)) = <[Z.to_nat i := o]> (outputs (manager (handler w)));
  it_objects : exists b,
    objects (manager (handler w1)) = <[Z.to_nat i := b]> (objects (manager (handler w)));
  it_functions : functions (manager (handler w1)) = functions (manager (handler w));
  it_events :
    match slot with
    | Some t =>
        if is_done t then evs = release_events i slot
        else exists obj, evs = [EvStep (pt_program t) (Some i) obj]
    | None => evs = []
    end
}.

(** ** Messages and sockets *)

(** The test of [check_and_forward]: not for this address, or for all. *)
Definition forwardable (a : Z) (msg : message) : bool :=
  negb (hdr_address (msg_hdr msg) =? a)
  || (hdr_address (msg_hdr msg) =? SOCKET_ADDR_ANY).

(** The socket after the message was copied into its send buffer. *)
Definition loaded (msg : message) (s : Socket) : Socket :=
  set_send_buffer (memcpy (send_buffer s) (msg_raw msg) (hdr_length (msg_hdr msg))) s.

(** The ACK flag of the message is set. *)
Definition has_ack (msg : message) : bool :=
  negb (Z.land (hdr_flags (msg_hdr msg)) MSG_FLAG_ACK =? 0).

(** The message written to the serial port as it is. *)
Definition echo (msg : message) : event :=
  EvSerialWrite (bytes_of (msg_raw msg) (hdr_length (msg_hdr msg))).

(** The capacity of the send buffer of each socket of the array. *)
Definition shape (ss : list (option Socket)) : list (option Z) :=
  (fun o : option Socket => send_data_size <$> o) <$> ss.

(** What [check_and_forward] does with the socket [k], by the socket's
    capacity. *)
Definition forward_event (a : Z) (msg : message) (k : nat) (size : Z) : list event :=
  if forwardable a msg then
    if size <? hdr_length (msg_hdr msg) then
      [EvDebugValue "Message larger than send buffer:" (hdr_length (msg_hdr msg))]
    else
      [EvSendMsgTo k (hdr_address (msg_hdr msg))
         (bytes_of (msg_raw msg) (hdr_length (msg_hdr msg)))]
  else [].

(** The events of the forwarding loop of [check_serial], for [n] sockets
    from socket [j] on. *)
Fixpoint forward_events (a : Z) (msg : message) (sh : list (option Z)) (n : nat) (j : Z)
  : list event :=
  match n with
  | O => []
  | S n' =>
      match sh !! Z.to_nat j with
      | Some (Some size) => forward_event a msg (Z.to_nat j) size
      | _ => []
      end ++ forward_events a msg sh n' (j + 1)
  end.

(** The message lies in its buffer. *)
Definition in_buffer (msg : message) : Prop :=
  0 <= hdr_length (msg_hdr msg) <= Z.of_nat (length (msg_raw msg)).

(** The array of sockets has [num_sockets] entries or more. *)
Definition sockets_covered (h : MessageHandler) : Prop :=
  0 <= num_sockets h <= Z.of_nat (length (sockets h)).

(** The device identifier of a set-address message is 0 or this node's. *)
Definition matches_device (msg : message) (config : config_hdr_t) : Prop :=
  sa_device_id (msg_set_addr msg) = 0 \/
  sa_device_id (msg_set_addr msg) = device_id config.

(** The message passes the tests of [process_msg] before the [switch], and
    is not written to the serial port on the way. *)
Definition reaches_switch (msg : message) (a : Z) : Prop :=
  hdr_version (msg_hdr msg) = HMTL_MSG_VERSION /\
  (hdr_address (msg_hdr msg) = SOCKET_ADDR_ANY \/
   (hdr_address (msg_hdr msg) = a /\
    Z.land (hdr_flags (msg_hdr msg)) MSG_FLAG_ACK = 0)).

(** The response that [hmtl_poll_fmt] writes into the socket's buffer. *)
Definition poll_response (msg : message) (s : Socket) (source_address : Z)
    (config : config_hdr_t) (w : world) : Z * list Z :=
  hmtl_poll_fmt (send_buffer s) (send_data_size s) source_address
    (hdr_flags (msg_hdr msg)) OBJECT_TYPE config
    (outputs (manager (handler w))) (recvLimit s).

End Vocabulary.

(** ** Allocation of trackers *)

(** The pointer is to a tracker. *)
Definition is_held (slot : option program_tracker_t) : bool :=
  match slot with Some _ => true | None => false end.

(** Slot [i] of the array of trackers holds a tracker. *)
Definition held (h : MessageHandler) (i : Z) : bool :=
  if 0 <=? i then
    match trackers (manager h) !! Z.to_nat i with
    | Some slot => is_held slot
    | None => false
    end
  else false.

(** The calls of [malloc] and [free] for the tracker of slot [i], replayed
    in the order of the trace, from a slot that holds a tracker or not
    ([b]).  A tracker is allocated for an empty slot only, else a tracker
    would be lost; it is freed from a slot that holds one only, else it
    would be freed twice.  The result is whether the slot holds a tracker
    after the last event, and there is none when a call is out of turn.
    The blocks behind [tracker->state] are not counted. *)
Fixpoint replay (i : Z) (b : bool) (evs : list event) : option bool :=
  match evs with
  | [] => Some b
  | EvMalloc slot :: rest =>
      if slot =? i then (if b then None else replay i true rest)
      else replay i b rest
  | EvFreeTracker slot :: rest =>
      if slot =? i then (if b then replay i false rest else None)
      else replay i b rest
  | _ :: rest => replay i b rest
  end.

(** Whatever the outcome, the trackers are allocated and freed in turn,
    slot by slot, and a slot holds a tracker afterwards exactly when the
    last of these calls for it was the allocation, or when it held one and
    there was no call. *)
Definition alternates {A : Type} (m : M A) : Prop :=
  forall w, exists evs,
    trace (m w).2 = trace w ++ evs /\
    forall i, replay i (held (handler w) i) evs = Some (held (handler (m w).2) i).

(** What an operation on the slot [i] of the trackers may do to the world:
    nothing but events, or a new content of that slot; the calls to
    [malloc] and [free] for trackers are those of the change of the slot,
    in turn. *)
Definition slot_effect (i : Z) (w w' : world) : Prop :=
  exists evs,
    trace w' = trace w ++ evs /\ junk w' = junk w /\
    (handler w' = handler w /\ (forall j b, replay j b evs = Some b) \/
     exists old new,
       0 <= i /\
       trackers (manager (handler w)) !! Z.to_nat i = Some old /\
       handler w' =
         set_manager
           (set_trackers (<[Z.to_nat i := new]> (trackers (manager (handler w))))
              (manager (handler w)))
           (handler w) /\
       forall j b,
         replay j (if i =? j then is_held old else b) evs =
           Some (if i =? j then is_held new else b)).

(** ** The tick of [run], output by output *)

Section TickVocabulary.
Context `{Headers}.

(** The pointer in entry [k] of an array of pointers (NULL outside it). *)
Definition entry_of {A : Type} (arr : list (option A)) (k : Z) : option A :=
  default None (arr !! Z.to_nat k).

(** The call that the tick makes for output [k], when it makes one: the
    tracker it steps and what the step function leaves. *)
Definition tick_step (pm : ProgramManager) (k : Z)
  : option (program_tracker_t * step_result) :=
  match entry_of (trackers pm) k with
  | Some t =>
      if is_done t then None
      else
        match functions pm !! pt_program t with
        | Some entry =>
            match program entry with
            | Some f =>
                Some (t, f (entry_of (outputs pm) k) (entry_of (objects pm) k) (Some t))
            | None => None
            end
        | None => None
        end
  | None => None
  end.

(** The events of the tick for output [k]. *)
Definition tick_events (pm : ProgramManager) (k : Z) : list event :=
  match entry_of (trackers pm) k with
  | Some t =>
      if is_done t then release_events k (Some t)
      else [EvStep (pt_program t) (Some k) (entry_of (objects pm) k)]
  | None => []
  end.

(** The tracker of output [k] after the tick. *)
Definition tick_tracker (pm : ProgramManager) (k : Z) : option program_tracker_t :=
  match entry_of (trackers pm) k with
  | Some t =>
      if is_done t then None
      else
        match tick_step pm k with
        | Some (_, r) => Some (default t (sr_tracker r))
        | None => Some t
        end
  | None => None
  end.

(** The step for output [k] reports a change. *)
Definition tick_changed (pm : ProgramManager) (k : Z) : bool :=
  match tick_step pm k with
  | Some (_, r) => sr_changed r
  | None => false
  end.

(** The events of the tick for [n] outputs from output [j] on, and
    whether one of their steps reports a change. *)
Fixpoint tick_events_from (pm : ProgramManager) (n : nat) (j : Z) : list event :=
  match n with
  | O => []
  | S n' => tick_events pm j ++ tick_events_from pm n' (j + 1)
  end.

Fixpoint tick_changed_from (pm : ProgramManager) (n : nat) (j : Z) : bool :=
  match n with
  | O => false
  | S n' => tick_changed pm j || tick_changed_from pm n' (j + 1)
  end.

(** The managers have the same table and the same entries from [j] on. *)
Definition agree_from (j : Z) (pm pm1 : ProgramManager) : Prop :=
  functions pm1 = functions pm /\
  forall k, j <= k ->
    trackers pm1 !! Z.to_nat k = trackers pm !! Z.to_nat k /\
    outputs pm1 !! Z.to_nat k = outputs pm !! Z.to_nat k /\
    objects pm1 !! Z.to_nat k = objects pm !! Z.to_nat k.

End TickVocabulary.

(** ** A sample node

    An AVR build (16-bit [int]) with sample values for the constants, a
    table of three programs, and library functions that do the least
    possible.  The closed examples below are evaluated on it. *)

Module Sample.

Lemma labels_distinct : NoDup [1; 2; 3; 4].
Proof. repeat (constructor; [rewrite ?elem_of_cons, ?elem_of_nil; lia |]); constructor. Qed.

#[export] Instance headers : Headers := {|
  HMTL_MSG_VERSION := 2;
  SOCKET_ADDR_ANY := 65535;
  MSG_FLAG_ACK := 1;
  MSG_TYPE_OUTPUT := 1;
  MSG_TYPE_POLL := 2;
  MSG_TYPE_SET_ADDR := 3;
  MSG_TYPE_SENSOR := 4;
  HMTL_OUTPUT_PROGRAM := 3;
  HMTL_PROGRAM_NONE := 0;
  PROGRAM_SENSOR_DATA := 32;
  PROGRAM_TRACKER_DONE := 1;
  OBJECT_TYPE := 0;
  HMTL_ACK := "ok";
  INT_BITS := 16;
  INT_BITS_min := Z.le_refl 16;
  case_labels_distinct := labels_distinct
|}.

#[export] Instance externals : Externals := {|
  hmtl_handle_output_msg := fun _ _ os bs => (os, bs);
  hmtl_poll_fmt := fun buf _ source_address _ _ config _ _ =>
    (2, [source_address; cfg_address config] ++ drop 2 buf);
  sourceFromData := fun s _ => sourceAddress s
|}.

(** A blink program: its setup keeps the message's values as state, its
    step reports a change and leaves its arguments as they are. *)
Definition blink_setup : hmtl_program_setup :=
  fun msg t =>
    (true, {| pt_program := pt_program t; pt_flags := pt_flags t;
              pt_state := Some (mp_values msg) |}).

Definition blink_step : hmtl_program_func :=
  fun out obj t =>
    {| sr_changed := true; sr_output := out; sr_object := obj; sr_tracker := t |}.

Definition sensor_step : hmtl_program_func :=
  fun out obj t =>
    {| sr_changed := false; sr_output := out; sr_object := obj; sr_tracker := t |}.

Definition none_program : hmtl_program_t :=
  {| prog_type := 0; program := None; setup := None |}.

Definition blink_program : hmtl_program_t :=
  {| prog_type := 1; program := Some blink_step; setup := Some blink_setup |}.

Definition sensor_program : hmtl_program_t :=
  {| prog_type := 32; program := Some sensor_step; setup := None |}.

Definition table : list hmtl_program_t :=
  [none_program; blink_program; sensor_program].

Definition out0 : output_hdr_t := {| oh_type := 1; oh_output := 0; oh_data := [11; 0] |}.
Definition out1 : output_hdr_t := {| oh_type := 1; oh_output := 1; oh_data := [12; 0] |}.

Definition running : program_tracker_t :=
  {| pt_program := 1; pt_flags := 0; pt_state := Some [7] |}.

Definition finished : program_tracker_t :=
  {| pt_program := 1; pt_flags := 1; pt_state := Some [7] |}.

(** Two outputs; the first runs a blink program, the second has one that
    is done. *)
Definition pm0 : ProgramManager :=
  {| outputs := [Some out0; Some out1];
     trackers := [Some running; Some finished];
     objects := [None; None];
     num_outputs := 2;
     functions := table;
     num_programs := 3 |}.

Definition sock0 : Socket :=
  {| send_buffer := [0; 0; 0; 0]; send_data_size := 4; recvLimit := 4;
     sourceAddress := 3 |}.

Definition sock1 : Socket :=
  {| send_buffer := [0; 0; 0; 0; 0; 0; 0; 0]; send_data_size := 8; recvLimit := 8;
     sourceAddress := 3 |}.

(** The node has address 3 and two sockets. *)
Definition mh0 : MessageHandler :=
  {| address := 3; manager := pm0; sockets := [Some sock0; Some sock1];
     num_sockets := 2; serial_msg_offset := 0; last_serial_ms := 0;
     last_ready_ms := 0 |}.

Definition w0 : world :=
  {| handler := mh0; trace := [];
     junk := {| pt_program := 9; pt_flags := 255; pt_state := Some [170] |} |}.

Definition config0 : config_hdr_t :=
  {| cfg_address := 3; device_id := 77; cfg_num_outputs := 2 |}.

(** A program message of the given type for the given output. *)
Definition program_msg (type output : Z) : msg_program_t :=
  {| mp_hdr := {| oh_type := 3; oh_output := output; oh_data := [] |};
     mp_type := type; mp_values := [1; 2; 3] |}.

(** A message of eight bytes with the given type, flags and destination. *)
Definition msg_to (type flags dest : Z) : message :=
  {| msg_hdr := {| hdr_version := 2; hdr_length := 8; hdr_type := type;
                   hdr_flags := flags; hdr_address := dest |};
     msg_raw := [252; 0; 2; 8; type; flags; dest mod 256; dest / 256];
     msg_program := program_msg 1 0;
     msg_set_addr := {| sa_device_id := 0; sa_address := 7 |};
     msg_sensors := [[5]] |}.

(** A descriptor that was left in the third entry of the array of outputs. *)
Definition out2 : output_hdr_t := {| oh_type := 2; oh_output := 2; oh_data := [6; 9; 10] |}.

(** The same two outputs in arrays of three entries. *)
Definition pm_spare : ProgramManager :=
  {| outputs := [Some out0; Some out1; Some out2];
     trackers := [Some running; Some finished; None];
     objects := [None; None; None];
     num_outputs := 2;
     functions := table;
     num_programs := 3 |}.

Definition w_spare : world :=
  {| handler := set_manager pm_spare mh0; trace := []; junk := junk w0 |}.

(** The sample manager with no descriptor for output 1. *)
Definition pm_unplugged : ProgramManager :=
  {| outputs := [Some out0; None];
     trackers := [Some running; Some finished];
     objects := [None; None];
     num_outputs := 2;
     functions := table;
     num_programs := 3 |}.

Definition w_unplugged : world :=
  {| handler := set_manager pm_unplugged mh0; trace := []; junk := junk w0 |}.

(** The sample manager with a table that has no entry for NONE. *)
Definition pm_bare : ProgramManager :=
  {| outputs := [Some out0; Some out1];
     trackers := [Some running; Some finished];
     objects := [None; None];
     num_outputs := 2;
     functions := [blink_program; sensor_program];
     num_programs := 2 |}.

Definition w_bare : world :=
  {| handler := set_manager pm_bare mh0; trace := []; junk := junk w0 |}.

#[export] Instance ready_headers : ReadyHeaders := {|
  ULONG_BITS := 32;
  READY_THRESHOLD := 5000;
  READY_RESEND_PERIOD := 1000;
  HMTL_READY := "ready";
  READY_THRESHOLD_nonneg := ltac:(lia);
  READY_RESEND_PERIOD_nonneg := ltac:(lia)
|}.

(** An output message for this node that carries the given program
    message. *)
Definition output_msg (type output : Z) : message :=
  {| msg_hdr := msg_hdr (msg_to 1 0 3); msg_raw := msg_raw (msg_to 1 0 3);
     msg_program := program_msg type output;
     msg_set_addr := msg_set_addr (msg_to 1 0 3);
     msg_sensors := [] |}.

(** A poll for this node in the format of version 1. *)
Definition old_version_msg : message :=
  {| msg_hdr := {| hdr_version := 1; hdr_length := 8; hdr_type := 2;
                   hdr_flags := 0; hdr_address := 3 |};
     msg_raw := [252; 0; 1; 8; 2; 0; 3; 0];
     msg_program := program_msg 1 0;
     msg_set_addr := {| sa_device_id := 0; sa_address := 7 |};
     msg_sensors := [] |}.

(** A set-address message for all nodes and the given device. *)
Definition set_addr_for (device : Z) : message :=
  {| msg_hdr := msg_hdr (msg_to 3 0 65535); msg_raw := msg_raw (msg_to 3 0 65535);
     msg_program := program_msg 1 0;
     msg_set_addr := {| sa_device_id := device; sa_address := 7 |};
     msg_sensors := [] |}.

End Sample.

(** * Proofs *)

Ltac unfold_M :=
  unfold mbind, mret, M_bind, M_ret, bind, ret, gets, modify, emit, lift,
    crash, malloc_tracker in *.

(** ** Arrays *)

Lemma load_Ok {A : Type} (arr : list A) (i : Z) (x : A) :
  load arr i = Ok x <-> 0 <= i /\ arr !! Z.to_nat i = Some x.
Proof.
  unfold load. destruct (Z.ltb_spec i 0).
  - split; [discriminate | lia].
  - destruct (arr !! Z.to_nat i) eqn:E; split; intros Hx;
      try discriminate; try (destruct Hx; congruence).
    injection Hx as ->. auto.
Qed.

Lemma store_Ok {A : Type} (arr : list A) (i : Z) (x : A) :
  0 <= i -> is_Some (arr !! Z.to_nat i) ->
  store arr i x = Ok (<[Z.to_nat i := x]> arr).
Proof.
  intros Hi [y Hy]. unfold store.
  destruct (Z.ltb_spec i 0); [lia |]. now rewrite Hy.
Qed.

(** ** ProgramManager *)

Section ProgramManagerFacts.
Context `{Headers}.

(** *** lookup_function *)

Lemma lookup_from_Some fs id n i p :
  0 <= i ->
  lookup_from fs id n i = Ok (Some p) ->
  exists entry, fs !! p = Some entry /\ prog_type entry = id.
Proof.
  revert i. induction n as [|n IH]; intros i Hi; simpl; [discriminate |].
  destruct (load fs i) as [f|] eqn:E; [| discriminate].
  destruct (Z.eqb_spec (prog_type f) id) as [Hid|Hid].
  - intros [= <-]. apply load_Ok in E as [_ E]. eauto.
  - apply IH. lia.
Qed.

Lemma lookup_function_Some id pm p :
  lookup_function id pm = Ok (Some p) ->
  exists entry,
    functions pm !! p = Some entry /\ prog_type entry = id /\
    load (functions pm) (Z.of_nat p) = Ok entry.
Proof.
  intros Hl. apply lookup_from_Some in Hl as (entry & He & Ht); [| lia].
  exists entry. repeat split; auto.
  apply load_Ok. rewrite Nat2Z.id. split; [lia | done].
Qed.

(** *** free_tracker *)

Lemma free_tracker_spec index slot w :
  0 <= index ->
  trackers (manager (handler w)) !! Z.to_nat index = Some slot ->
  free_tracker index w =
    (Ok tt,
     {| handler :=
          set_manager
            (set_trackers (<[Z.to_nat index := None]> (trackers (manager (handler w))))
               (manager (handler w)))
            (handler w);
        trace := trace w ++ release_events index slot;
        junk := junk w |}).
Proof.
  intros Hi Hs. unfold free_tracker, write_tracker. unfold_M.
  assert (Hl : load (trackers (manager (handler w))) index = Ok slot)
    by (apply load_Ok; auto).
  rewrite Hl.
  destruct slot as [t|]; simpl.
  - destruct (pt_state t); simpl; rewrite store_Ok by eauto; simpl;
      rewrite <- ?app_assoc; reflexivity.
  - rewrite store_Ok by eauto. simpl. rewrite app_nil_r. reflexivity.
Qed.

(** *** handle_msg *)

(** C6, as amended. For a valid output with a descriptor and a message of
    the reserved type NONE, when NONE is an entry of the table: whatever the
    slot of the output holds, [handle_msg] returns true, has freed the
    tracker that was there (and its state), and leaves the slot empty. *)
Theorem handle_msg_none_releases (msg : msg_program_t) (p : nat) (o : output_hdr_t)
    (slot : option program_tracker_t) (w : world) :
  0 <= oh_output (mp_hdr msg) < num_outputs (manager (handler w)) ->
  mp_type msg = HMTL_PROGRAM_NONE ->
  lookup_function (mp_type msg) (manager (handler w)) = Ok (Some p) ->
  outputs (manager (handler w)) !! Z.to_nat (oh_output (mp_hdr msg)) = Some (Some o) ->
  trackers (manager (handler w)) !! Z.to_nat (oh_output (mp_hdr msg)) = Some slot ->
  exists w',
    handle_msg msg w = (Ok true, w') /\
    trackers (manager (handler w')) =
      <[Z.to_nat (oh_output (mp_hdr msg)) := None]> (trackers (manager (handler w))) /\
    trackers (manager (handler w')) !! Z.to_nat (oh_output (mp_hdr msg)) = Some None /\
    trace w' = trace w ++ release_events (oh_output (mp_hdr msg)) slot.
Proof.
  intros [Hi0 Hi] Hnone Hlook Hout Hslot.
  destruct (lookup_function_Some _ _ _ Hlook) as (entry & _ & Hty & Hent).
  eexists. split.
  - unfold handle_msg. unfold_M. rewrite Hlook.
    destruct (Z.ltb_spec (num_outputs (manager (handler w))) (oh_output (mp_hdr msg)));
      [lia |].
    rewrite (proj2 (load_Ok _ _ _) (conj Hi0 Hout)).
    rewrite (proj2 (load_Ok _ _ _) (conj Hi0 Hslot)).
    rewrite Hent, Hty, Hnone, Z.eqb_refl.
    rewrite (free_tracker_spec _ slot) by auto. reflexivity.
  - simpl. repeat split; auto.
    apply list_lookup_insert_eq. eapply lookup_lt_Some; eauto.
Qed.

Lemma write_tracker_spec index t slot w :
  0 <= index ->
  trackers (manager (handler w)) !! Z.to_nat index = Some slot ->
  write_tracker index t w =
    (Ok tt,
     {| handler :=
          set_manager
            (set_trackers (<[Z.to_nat index := t]> (trackers (manager (handler w))))
               (manager (handler w)))
            (handler w);
        trace := trace w;
        junk := junk w |}).
Proof.
  intros Hi Hs. unfold write_tracker. unfold_M.
  rewrite store_Ok by eauto. reflexivity.
Qed.

(** C1. For a valid output index and a program message of a registered
    type other than NONE: when [handle_msg] returns true, the slot of the
    output holds one tracker, the one that the setup function of the program
    left.  The setup was called with the message and that tracker; at the
    call the tracker's program pointer was the entry that [lookup_function]
    finds and its flags were 0 (DONE cleared), and so they are afterwards
    when the setup writes the state only.  A tracker is allocated only
    where the slot was empty. *)
Theorem handle_msg_assigns_program (msg : msg_program_t) (p : nat) (w w' : world) :
  0 <= oh_output (mp_hdr msg) < num_outputs (manager (handler w)) ->
  lookup_function (mp_type msg) (manager (handler w)) = Ok (Some p) ->
  mp_type msg <> HMTL_PROGRAM_NONE ->
  handle_msg msg w = (Ok true, w') ->
  exists entry f slot t0,
    functions (manager (handler w)) !! p = Some entry /\
    prog_type entry = mp_type msg /\
    setup entry = Some f /\
    trackers (manager (handler w)) !! Z.to_nat (oh_output (mp_hdr msg)) = Some slot /\
    t0 = set_program_flags p 0 (default (junk w) slot) /\
    pt_program t0 = p /\ pt_flags t0 = 0 /\
    trace w' =
      trace w ++ assign_events (oh_output (mp_hdr msg)) slot
              ++ [EvSetup p msg (oh_output (mp_hdr msg)) t0] /\
    trackers (manager (handler w')) =
      <[Z.to_nat (oh_output (mp_hdr msg)) := Some (f msg t0).2]>
        (trackers (manager (handler w))) /\
    trackers (manager (handler w')) !! Z.to_nat (oh_output (mp_hdr msg)) =
      Some (Some (f msg t0).2) /\
    functions (manager (handler w')) = functions (manager (handler w)) /\
    (setup_keeps_header f ->
     pt_program (f msg t0).2 = p /\ pt_flags (f msg t0).2 = 0 /\
     Z.land (pt_flags (f msg t0).2) PROGRAM_TRACKER_DONE = 0).
Proof.
  intros [Hi0 Hi] Hlook Hnone Hrun.
  destruct (lookup_function_Some _ _ _ Hlook) as (entry & Hfn & Hty & Hent).
  unfold handle_msg in Hrun. unfold_M. rewrite Hlook in Hrun.
  destruct (Z.ltb_spec (num_outputs (manager (handler w))) (oh_output (mp_hdr msg)));
    [lia |].
  destruct (load (outputs (manager (handler w))) (oh_output (mp_hdr msg)))
    as [[o|]|] eqn:Eout; try discriminate.
  destruct (load (trackers (manager (handler w))) (oh_output (mp_hdr msg)))
    as [slot|] eqn:Eslot; try discriminate.
  apply load_Ok in Eslot as [_ Eslot].
  rewrite Hent in Hrun.
  destruct (Z.eqb_spec (prog_type entry) HMTL_PROGRAM_NONE); [congruence |].
  assert (Hlen : (Z.to_nat (oh_output (mp_hdr msg))
                  < length (trackers (manager (handler w))))%nat)
    by (eapply lookup_lt_Some; eauto).
  exists entry.
  destruct (setup entry) as [f|] eqn:Esetup.
  - exists f, slot, (set_program_flags p 0 (default (junk w) slot)).
    assert (Hres :
      w' = {| handler :=
                set_manager
                  (set_trackers
                     (<[Z.to_nat (oh_output (mp_hdr msg)) :=
                          Some (f msg (set_program_flags p 0 (default (junk w) slot))).2]>
                        (trackers (manager (handler w))))
                     (manager (handler w)))
                  (handler w);
              trace := trace w ++ assign_events (oh_output (mp_hdr msg)) slot
                         ++ [EvSetup p msg (oh_output (mp_hdr msg))
                               (set_program_flags p 0 (default (junk w) slot))];
              junk := junk w |}).
    { destruct slot as [t|]; simpl in Hrun |- *.
      - destruct (pt_state t); simpl in Hrun;
          (erewrite write_tracker_spec in Hrun by (simpl; eauto); simpl in Hrun;
           erewrite write_tracker_spec in Hrun
             by (simpl; eauto; apply list_lookup_insert_eq; auto);
           simpl in Hrun; injection Hrun as <-;
           rewrite list_insert_insert_eq, <- ?app_assoc; reflexivity).
      - erewrite write_tracker_spec in Hrun by (simpl; eauto). simpl in Hrun.
        erewrite write_tracker_spec in Hrun
          by (simpl; eauto; apply list_lookup_insert_eq; auto).
        simpl in Hrun.
        erewrite write_tracker_spec in Hrun
          by (simpl; eauto; apply list_lookup_insert_eq; rewrite length_insert; auto).
        simpl in Hrun. injection Hrun as <-.
        rewrite !list_insert_insert_eq, <- ?app_assoc. reflexivity. }
    subst w'. simpl. split_and!; auto.
    + apply list_lookup_insert_eq; auto.
    + intros Hk.
      destruct (Hk msg (set_program_flags p 0 (default (junk w) slot))) as [-> ->].
      simpl. auto.
  - exfalso. destruct slot as [t|]; simpl in Hrun.
    + destruct (pt_state t); simpl in Hrun;
        erewrite write_tracker_spec in Hrun by (simpl; eauto); discriminate.
    + erewrite write_tracker_spec in Hrun by (simpl; eauto). simpl in Hrun.
      erewrite write_tracker_spec in Hrun
        by (simpl; eauto; apply list_lookup_insert_eq; auto).
      discriminate.
Qed.

(** *** run *)

Lemma write_output_spec index o old w :
  0 <= index ->
  outputs (manager (handler w)) !! Z.to_nat index = Some old ->
  write_output index o w =
    (Ok tt,
     {| handler :=
          set_manager
            (set_outputs (<[Z.to_nat index := o]> (outputs (manager (handler w))))
               (manager (handler w)))
            (handler w);
        trace := trace w;
        junk := junk w |}).
Proof.
  intros Hi Hs. unfold write_output. unfold_M.
  rewrite store_Ok by eauto. reflexivity.
Qed.

Lemma write_object_spec index b old w :
  0 <= index ->
  objects (manager (handler w)) !! Z.to_nat index = Some old ->
  write_object index b w =
    (Ok tt,
     {| handler :=
          set_manager
            (set_objects (<[Z.to_nat index := b]> (objects (manager (handler w))))
               (manager (handler w)))
            (handler w);
        trace := trace w;
        junk := junk w |}).
Proof.
  intros Hi Hs. unfold write_object. unfold_M.
  rewrite store_Ok by eauto. reflexivity.
Qed.

Lemma run_output_spec i updated w slot :
  0 <= i ->
  is_Some (outputs (manager (handler w)) !! Z.to_nat i) ->
  is_Some (objects (manager (handler w)) !! Z.to_nat i) ->
  trackers (manager (handler w)) !! Z.to_nat i = Some slot ->
  steppable (manager (handler w)) slot ->
  exists u w1 evs,
    run_output i updated w = (Ok u, w1) /\ iteration i slot w w1 evs.
Proof.
  intros Hi [o Ho] [b Hb] Hs Hstep.
  unfold run_output. unfold_M.
  rewrite (proj2 (load_Ok _ _ _) (conj Hi Hs)).
  destruct slot as [t|].
  - fold (is_done t). destruct (is_done t) eqn:Ed.
    + rewrite (free_tracker_spec _ (Some t)) by auto.
      do 3 eexists. split; [reflexivity |].
      split; simpl; eauto.
      * exists o. symmetry. apply list_insert_id. done.
      * exists b. symmetry. apply list_insert_id. done.
      * rewrite Ed. reflexivity.
    + destruct (Hstep t eq_refl Ed) as (entry & f & Hent & Hf).
      rewrite (proj2 (load_Ok _ _ _) (conj (Nat2Z.is_nonneg _) (eq_ind_r (fun n => _ !! n = _) Hent (Nat2Z.id _)))).
      rewrite Hf. simpl.
      rewrite (proj2 (load_Ok _ _ _) (conj Hi Ho)).
      rewrite (proj2 (load_Ok _ _ _) (conj Hi Hb)).
      erewrite write_output_spec by (simpl; eauto). simpl.
      erewrite write_object_spec by (simpl; eauto). simpl.
      erewrite write_tracker_spec by (simpl; eauto). simpl.
      do 3 eexists. split; [reflexivity |].
      split; simpl; eauto.
      * eexists. split; [reflexivity |]. intros t' [= <-]. congruence.
      * rewrite Ed. eauto.
  - do 3 eexists. split; [reflexivity |].
    split; simpl; eauto.
    + rewrite app_nil_r. done.
    + exists None. split; [| done]. symmetry. apply list_insert_id. done.
    + exists o. symmetry. apply list_insert_id. done.
    + exists b. symmetry. apply list_insert_id. done.
Qed.

Lemma runnable_step j hi w w1 slot evs :
  0 <= j ->
  runnable j hi (manager (handler w)) ->
  iteration j slot w w1 evs ->
  runnable (j + 1) hi (manager (handler w1)).
Proof.
  intros Hj Hr [_ (new & Ht & _) (o & Ho) (b & Hb) Hf _] k Hk.
  destruct (Hr k ltac:(lia)) as (Hout & Hobj & slot' & Hs & Hstep).
  assert (Z.to_nat j <> Z.to_nat k) by lia.
  rewrite Ho, Hb, Ht, !list_lookup_insert_ne by done.
  split_and!; auto. exists slot'. split; auto.
  intros t -> Hd. unfold steppable in Hstep. rewrite Hf. eauto.
Qed.

Lemma release_events_tracker i t : EvFreeTracker i ∈ release_events i (Some t).
Proof.
  simpl. destruct (pt_state t); rewrite ?elem_of_cons; auto.
Qed.

Lemma run_from_spec n : forall j updated w,
  0 <= j ->
  runnable j (j + Z.of_nat n) (manager (handler w)) ->
  exists u w' evs,
    run_from n j updated w = (Ok u, w') /\
    trace w' = trace w ++ evs /\
    (forall k, 0 <= k -> ~ (j <= k < j + Z.of_nat n) ->
       trackers (manager (handler w')) !! Z.to_nat k =
       trackers (manager (handler w)) !! Z.to_nat k) /\
    (forall k t, j <= k < j + Z.of_nat n ->
       trackers (manager (handler w)) !! Z.to_nat k = Some (Some t) ->
       is_done t = true ->
       trackers (manager (handler w')) !! Z.to_nat k = Some None /\
       EvFreeTracker k ∈ evs) /\
    (forall p k obj, EvStep p (Some k) obj ∈ evs ->
       j <= k < j + Z.of_nat n /\
       exists t, trackers (manager (handler w)) !! Z.to_nat k = Some (Some t) /\
                 is_done t = false).
Proof.
  induction n as [|n IH]; intros j updated w Hj Hr.
  - exists updated, w, []. simpl. unfold_M. rewrite app_nil_r.
    split_and!; auto.
    + intros; lia.
    + intros p k obj Hin. apply elem_of_nil in Hin. done.
  - destruct (Hr j ltac:(lia)) as (Hout & Hobj & slot & Hs & Hstep).
    destruct (run_output_spec j updated w slot Hj Hout Hobj Hs Hstep)
      as (u1 & w1 & evs0 & Hrun & Hit).
    assert (Hr1 : runnable (j + 1) (j + 1 + Z.of_nat n) (manager (handler w1))).
    { eapply runnable_step; eauto.
      intros k Hk. apply Hr. lia. }
    destruct (IH (j + 1) u1 w1 ltac:(lia) Hr1)
      as (u & w' & evs1 & Hrest & Htr & Hframe & Hdone & Hsteps).
    destruct Hit as [Htr0 (new & Ht & Hnew) _ _ _ Hev].
    exists u, w', (evs0 ++ evs1).
    split; [| split_and!].
    + simpl. unfold_M. rewrite Hrun. exact Hrest.
    + rewrite Htr, Htr0, app_assoc. done.
    + intros k Hk0 Hk. rewrite Hframe by lia.
      rewrite Ht, list_lookup_insert_ne by lia. done.
    + intros k t Hk Hkt Hd.
      destruct (decide (k = j)) as [->|Hne].
      * rewrite Hs in Hkt. injection Hkt as ->.
        rewrite Hframe by lia. rewrite Ht.
        rewrite (Hnew t eq_refl Hd).
        split; [apply list_lookup_insert_eq; eapply lookup_lt_Some; eauto |].
        rewrite Hd in Hev. subst evs0.
        apply elem_of_app. left. apply release_events_tracker.
      * destruct (Hdone k t ltac:(lia)) as [Hk1 Hk2]; auto.
        { rewrite Ht, list_lookup_insert_ne by lia. done. }
        split; auto. apply elem_of_app. auto.
    + intros p k obj Hin. apply elem_of_app in Hin as [Hin|Hin].
      * destruct slot as [t|].
        -- destruct (is_done t) eqn:Ed.
           ++ subst evs0. simpl in Hin.
              destruct (pt_state t);
                repeat (apply elem_of_cons in Hin as [Hin|Hin]; [discriminate |]);
                apply elem_of_nil in Hin; done.
           ++ destruct Hev as [obj' ->].
              apply list_elem_of_singleton in Hin. injection Hin as -> -> ->.
              split; [lia |]. eauto.
        -- subst evs0. apply elem_of_nil in Hin. done.
      * destruct (Hsteps p k obj Hin) as (Hk & t & Hkt & Hd).
        split; [lia |]. exists t. split; auto.
        rewrite Ht, list_lookup_insert_ne in Hkt by lia. done.
Qed.

(** C2. When the tick starts with a tracker flagged DONE in the slot of an
    output, [run] returns, never calls a step function for that slot, frees
    the tracker and leaves the slot empty, so the next tick finds no tracker
    there. *)
Theorem run_releases_done (i : Z) (t : program_tracker_t) (w : world) :
  can_run (manager (handler w)) ->
  0 <= i < num_outputs (manager (handler w)) ->
  trackers (manager (handler w)) !! Z.to_nat i = Some (Some t) ->
  Z.land (pt_flags t) PROGRAM_TRACKER_DONE <> 0 ->
  exists updated w' evs,
    run w = (Ok updated, w') /\
    trace w' = trace w ++ evs /\
    (forall p obj, EvStep p (Some i) obj ∉ evs) /\
    EvFreeTracker i ∈ evs /\
    trackers (manager (handler w')) !! Z.to_nat i = Some None.
Proof.
  intros Hr Hi Ht Hdone.
  assert (Hd : is_done t = true).
  { unfold is_done. destruct (Z.eqb_spec (Z.land (pt_flags t) PROGRAM_TRACKER_DONE) 0);
      [done | reflexivity]. }
  destruct (run_from_spec (Z.to_nat (num_outputs (manager (handler w)))) 0 false w)
    as (u & w' & evs & Hrun & Htr & _ & Hrel & Hsteps); [lia | |].
  { unfold can_run in Hr. rewrite Z2Nat.id by lia. exact Hr. }
  exists u, w', evs. split_and!; auto.
  - intros p obj Hin. destruct (Hsteps p i obj Hin) as (_ & t' & Ht' & Hd').
    congruence.
  - apply (Hrel i t); auto. lia.
  - apply (Hrel i t); auto. lia.
Qed.

(** *** run_program *)

(** C9. [run_program] calls through the pointer that [lookup_function]
    returns without testing it: for a type that is not in the table this is
    a NULL dereference; for a type whose entry has a step function the call
    is made and the result is false; and whenever [run_program] returns,
    the type is in the table. *)
Theorem run_program_unchecked_lookup (type : Z) (arg : option blob) (w : world) :
  (lookup_function type (manager (handler w)) = Ok None ->
   run_program type arg w = (Fault NullPointer, w)) /\
  (forall p entry f,
     lookup_function type (manager (handler w)) = Ok (Some p) ->
     functions (manager (handler w)) !! p = Some entry ->
     program entry = Some f ->
     run_program type arg w = (Ok false, logged [EvStep p None arg] w)) /\
  (forall b w',
     run_program type arg w = (Ok b, w') ->
     exists p entry f,
       lookup_function type (manager (handler w)) = Ok (Some p) /\
       functions (manager (handler w)) !! p = Some entry /\
       prog_type entry = type /\
       program entry = Some f).
Proof.
  split_and!.
  - intros Hl. unfold run_program. unfold_M. rewrite Hl. reflexivity.
  - intros p entry f Hl He Hf.
    destruct (lookup_function_Some _ _ _ Hl) as (entry' & He' & _ & Hload).
    assert (entry' = entry) as -> by congruence.
    unfold run_program. unfold_M. rewrite Hl. simpl. rewrite Hload, Hf. reflexivity.
  - intros b w' Hrun. unfold run_program in Hrun. unfold_M.
    destruct (lookup_function type (manager (handler w))) as [[p|]|] eqn:Hl;
      simpl in Hrun; try discriminate.
    destruct (lookup_function_Some _ _ _ Hl) as (entry & He & Ht & Hload).
    rewrite Hload in Hrun.
    destruct (program entry) as [f|] eqn:Hf; simpl in Hrun; try discriminate.
    eauto 10.
Qed.

(** *** handle_msg, the refusals *)

(** X1. A program message for an output index greater than
    [num_outputs], or for an output without a descriptor, is refused
    whatever its program type: [handle_msg] returns false and leaves a
    diagnostic and nothing else. *)
Theorem handle_msg_rejects (msg : msg_program_t) (w : world) :
  0 <= oh_output (mp_hdr msg) ->
  is_ok (lookup_function (mp_type msg) (manager (handler w))) = true ->
  num_outputs (manager (handler w)) < oh_output (mp_hdr msg) \/
    outputs (manager (handler w)) !! Z.to_nat (oh_output (mp_hdr msg)) = Some None ->
  exists s v, handle_msg msg w = (Ok false, logged [EvDebugValue s v] w).
Proof.
  intros Hi Hl Hbad. unfold handle_msg. unfold_M.
  destruct (lookup_function (mp_type msg) (manager (handler w))) as [[p|]|];
    try discriminate; simpl; [| eauto].
  destruct (Z.ltb_spec (num_outputs (manager (handler w))) (oh_output (mp_hdr msg)));
    [eauto |].
  destruct Hbad as [Hbig | Hnull]; [lia |].
  rewrite (proj2 (load_Ok _ _ _) (conj Hi Hnull)). simpl. eauto.
Qed.

End ProgramManagerFacts.

(** ** Which events a computation emits *)

Section EmitsOnly.
Context (P : event -> Prop).

Lemma emits_ret {A : Type} (a : A) : emits_only P (mret a).
Proof. intros w. exists []. simpl. rewrite app_nil_r. auto. Qed.

Lemma emits_crash {A : Type} (f : fault) : emits_only P (crash f : M A).
Proof. intros w. exists []. simpl. rewrite app_nil_r. auto. Qed.

Lemma emits_lift {A : Type} (r : outcome A) : emits_only P (lift r).
Proof. intros w. exists []. simpl. rewrite app_nil_r. auto. Qed.

Lemma emits_gets {A : Type} (f : MessageHandler -> A) : emits_only P (gets f).
Proof. intros w. exists []. simpl. rewrite app_nil_r. auto. Qed.

Lemma emits_modify (f : MessageHandler -> MessageHandler) : emits_only P (modify f).
Proof. intros w. exists []. simpl. rewrite app_nil_r. auto. Qed.

Lemma emits_emit (e : event) : P e -> emits_only P (emit e).
Proof. intros He w. exists [e]. simpl. auto. Qed.

Lemma emits_malloc (slot : Z) : P (EvMalloc slot) -> emits_only P (malloc_tracker slot).
Proof. intros He w. exists [EvMalloc slot]. simpl. auto. Qed.

Lemma emits_bind {A B : Type} (m : M A) (k : A -> M B) :
  emits_only P m -> (forall a, emits_only P (k a)) -> emits_only P (m ≫= k).
Proof.
  intros Hm Hk w. unfold_M.
  destruct (Hm w) as (evs & Ht & Hp).
  destruct (m w) as [[a|f] w1]; simpl in *.
  - destruct (Hk a w1) as (evs' & Ht' & Hp').
    exists (evs ++ evs'). rewrite Ht', Ht, app_assoc. split; [done |].
    apply Forall_app. auto.
  - exists evs. auto.
Qed.

End EmitsOnly.

Lemma emits_weaken {A : Type} (P Q : event -> Prop) (m : M A) :
  (forall e, P e -> Q e) -> emits_only P m -> emits_only Q m.
Proof.
  intros Hpq Hm w. destruct (Hm w) as (evs & Ht & Hp).
  exists evs. split; [done |]. eapply Forall_impl; eauto.
Qed.

Lemma not_send_not_on j e : not_send e -> not_send_on j e.
Proof. destruct e; simpl; done. Qed.

Ltac event_ok :=
  first [ exact I | reflexivity
        | unfold not_send_on; simpl; case_decide; congruence ].

Ltac emits_step :=
  match goal with
  | |- emits_only _ (mret _) => apply emits_ret
  | |- emits_only _ (crash _) => apply emits_crash
  | |- emits_only _ (lift _) => apply emits_lift
  | |- emits_only _ (gets _) => apply emits_gets
  | |- emits_only _ (modify _) => apply emits_modify
  | |- emits_only _ (emit _) => apply emits_emit; event_ok
  | |- emits_only _ (malloc_tracker _) => apply emits_malloc; event_ok
  | |- emits_only _ (_ ≫= _) => apply emits_bind; [| intros ?]
  | |- emits_only _ (match ?x with _ => _ end) => destruct x
  | |- emits_only _ (let (_, _) := ?x in _) => destruct x
  end.

Ltac emits := repeat emits_step.

(** ** MessageHandler *)

Section MessageHandlerFacts.
Context `{Headers} `{Externals}.

(** *** check_and_forward *)

Lemma deref_live k s w :
  sockets (handler w) !! k = Some (Some s) ->
  deref (Some k) w = (Ok (k, s), w).
Proof. intros Hs. unfold deref. unfold_M. simpl. rewrite Hs. reflexivity. Qed.

Lemma deref_null w : deref None w = (Fault NullPointer, w).
Proof. reflexivity. Qed.

Lemma check_and_forward_spec msg k s w :
  sockets (handler w) !! k = Some (Some s) ->
  check_and_forward msg (Some k) w =
    if forwardable (address (handler w)) msg then
      if send_data_size s <? hdr_length (msg_hdr msg) then
        (Ok false,
         logged [EvDebugValue "Message larger than send buffer:"
                   (hdr_length (msg_hdr msg))] w)
      else
        (Ok true,
         logged [EvSendMsgTo k (hdr_address (msg_hdr msg))
                   (bytes_of (send_buffer (loaded msg s)) (hdr_length (msg_hdr msg)))]
           (with_handler
              (set_sockets (<[k := Some (loaded msg s)]> (sockets (handler w)))
                 (handler w)) w))
    else (Ok false, w).
Proof.
  intros Hs. unfold check_and_forward, forwardable. unfold_M.
  destruct (negb _ || _); [| reflexivity].
  rewrite (deref_live _ _ _ Hs).
  destruct (send_data_size s <? hdr_length (msg_hdr msg)); reflexivity.
Qed.

(** C7. When the message is longer than the send buffer of the socket,
    [check_and_forward] returns false and changes nothing but the trace,
    where it leaves no transmission (and the diagnostic, when the message
    was to be forwarded).  The send buffer is different afterwards only
    when the length is at most the capacity, and then it holds the copy. *)
Theorem check_and_forward_guard (msg : message) (k : nat) (s : Socket) (w : world) :
  sockets (handler w) !! k = Some (Some s) ->
  (send_data_size s < hdr_length (msg_hdr msg) ->
   exists evs,
     check_and_forward msg (Some k) w = (Ok false, logged evs w) /\
     (forall j dest data, EvSendMsgTo j dest data ∉ evs) /\
     (forwardable (address (handler w)) msg = true ->
      evs = [EvDebugValue "Message larger than send buffer:" (hdr_length (msg_hdr msg))]))
  /\
  (forall s', sockets (handler (check_and_forward msg (Some k) w).2) !! k = Some (Some s') ->
     send_buffer s' <> send_buffer s ->
     hdr_length (msg_hdr msg) <= send_data_size s /\
     send_buffer s' = memcpy (send_buffer s) (msg_raw msg) (hdr_length (msg_hdr msg))).
Proof.
  intros Hs. rewrite (check_and_forward_spec _ _ _ _ Hs). split.
  - intros Hbig.
    destruct (forwardable _ _).
    + destruct (Z.ltb_spec (send_data_size s) (hdr_length (msg_hdr msg))); [| lia].
      eexists. split; [reflexivity |]. split; [| done].
      intros j dest data Hin. apply list_elem_of_singleton in Hin. discriminate.
    + exists []. split; [| split; [| done]].
      * unfold logged. rewrite app_nil_r. destruct w; reflexivity.
      * intros j dest data Hin. apply elem_of_nil in Hin. done.
  - intros s' Hs' Hne.
    destruct (forwardable _ _); simpl in Hs'.
    + destruct (Z.ltb_spec (send_data_size s) (hdr_length (msg_hdr msg)));
        simpl in Hs'.
      * congruence.
      * rewrite list_lookup_insert_eq in Hs' by (eapply lookup_lt_Some; eauto).
        injection Hs' as <-. split; [lia | reflexivity].
    + congruence.
Qed.

(** *** process_msg *)

Lemma labels_ne :
  MSG_TYPE_OUTPUT <> MSG_TYPE_POLL /\ MSG_TYPE_OUTPUT <> MSG_TYPE_SET_ADDR /\
  MSG_TYPE_OUTPUT <> MSG_TYPE_SENSOR /\ MSG_TYPE_POLL <> MSG_TYPE_SET_ADDR /\
  MSG_TYPE_POLL <> MSG_TYPE_SENSOR /\ MSG_TYPE_SET_ADDR <> MSG_TYPE_SENSOR.
Proof.
  pose proof case_labels_distinct as Hd.
  rewrite !NoDup_cons, !not_elem_of_cons in Hd.
  intuition congruence.
Qed.

(** [process_msg] by the cases of its tests. *)
Lemma process_msg_cases msg src serial_socket config w :
  hdr_version (msg_hdr msg) = HMTL_MSG_VERSION ->
  process_msg msg src serial_socket config w =
    if (hdr_address (msg_hdr msg) =? address (handler w))
       || (hdr_address (msg_hdr msg) =? SOCKET_ADDR_ANY) then
      if has_ack msg && negb (hdr_address (msg_hdr msg) =? SOCKET_ADDR_ANY) then
        if hdr_type (msg_hdr msg) =? MSG_TYPE_SENSOR then
          dispatch msg src serial_socket config (logged [echo msg] w)
        else (Ok false, logged [echo msg] w)
      else dispatch msg src serial_socket config w
    else (Ok false, w).
Proof.
  intros Hv. unfold process_msg, has_ack. rewrite Hv, Z.eqb_refl. simpl.
  unfold_M.
  destruct (_ || _); [| reflexivity].
  destruct (_ && _); [| reflexivity].
  destruct (hdr_type (msg_hdr msg) =? MSG_TYPE_SENSOR); reflexivity.
Qed.

(** C5, as amended. A message of the right version with the ACK flag set
    and a destination other than broadcast is written to the serial port as
    it is exactly when its destination is this node's own address; then
    processing stops, with the result false, unless the type is SENSOR, in
    which case the [switch] follows.  With any other destination the message
    is neither written to the serial port nor dispatched. *)
Theorem process_msg_ack_rule (msg : message) (src serial_socket : option nat)
    (config : config_hdr_t) (w : world) :
  hdr_version (msg_hdr msg) = HMTL_MSG_VERSION ->
  Z.land (hdr_flags (msg_hdr msg)) MSG_FLAG_ACK <> 0 ->
  hdr_address (msg_hdr msg) <> SOCKET_ADDR_ANY ->
  process_msg msg src serial_socket config w =
    if hdr_address (msg_hdr msg) =? address (handler w) then
      if hdr_type (msg_hdr msg) =? MSG_TYPE_SENSOR then
        dispatch msg src serial_socket config (logged [echo msg] w)
      else (Ok false, logged [echo msg] w)
    else (Ok false, w).
Proof.
  intros Hv Hack Hany. rewrite process_msg_cases by done. unfold has_ack.
  destruct (Z.eqb_spec (Z.land (hdr_flags (msg_hdr msg)) MSG_FLAG_ACK) 0); [done |].
  destruct (Z.eqb_spec (hdr_address (msg_hdr msg)) SOCKET_ADDR_ANY); [done |].
  rewrite orb_false_r. reflexivity.
Qed.

(** A message for all nodes reaches the [switch]. *)
Lemma process_msg_broadcast msg src serial_socket config w :
  hdr_version (msg_hdr msg) = HMTL_MSG_VERSION ->
  hdr_address (msg_hdr msg) = SOCKET_ADDR_ANY ->
  process_msg msg src serial_socket config w = dispatch msg src serial_socket config w.
Proof.
  intros Hv Hany. rewrite process_msg_cases by done.
  rewrite Hany, Z.eqb_refl, orb_true_r, andb_false_r. reflexivity.
Qed.

(** A message for this node without the ACK flag reaches the [switch]. *)
Lemma process_msg_own msg src serial_socket config w :
  hdr_version (msg_hdr msg) = HMTL_MSG_VERSION ->
  hdr_address (msg_hdr msg) = address (handler w) ->
  Z.land (hdr_flags (msg_hdr msg)) MSG_FLAG_ACK = 0 ->
  process_msg msg src serial_socket config w = dispatch msg src serial_socket config w.
Proof.
  intros Hv Hown Hack. rewrite process_msg_cases by done. unfold has_ack.
  rewrite Hown, Hack, Z.eqb_refl. reflexivity.
Qed.

(** *** SET_ADDR *)

Lemma dispatch_set_addr msg src serial_socket config w :
  hdr_type (msg_hdr msg) = MSG_TYPE_SET_ADDR ->
  dispatch msg src serial_socket config w =
    if (sa_device_id (msg_set_addr msg) =? 0)
       || (sa_device_id (msg_set_addr msg) =? device_id config) then
      match deref src (with_handler (set_address (sa_address (msg_set_addr msg)) (handler w)) w) with
      | (Ok (k, s), w1) =>
          (Ok false,
           with_handler
             (set_sockets
                (<[k := Some (set_sourceAddress (sa_address (msg_set_addr msg)) s)]>
                   (sockets (handler w1)))
                (handler w1)) w1)
      | (Fault f, w1) => (Fault f, w1)
      end
    else (Ok false, w).
Proof.
  intros Hty. destruct labels_ne as (_ & Hne1 & _ & Hne2 & _).
  unfold dispatch. rewrite Hty.
  destruct (Z.eqb_spec MSG_TYPE_SET_ADDR MSG_TYPE_OUTPUT); [congruence |].
  destruct (Z.eqb_spec MSG_TYPE_SET_ADDR MSG_TYPE_POLL); [congruence |].
  rewrite Z.eqb_refl. unfold_M. unfold update_socket. unfold_M.
  destruct (_ || _); [| reflexivity]. simpl.
  fold (with_handler (set_address (sa_address (msg_set_addr msg)) (handler w)) w).
  destruct (deref src _) as [[[k s]|f] w1]; reflexivity.
Qed.

(** *** Forwarding from the serial port *)

Lemma bytes_of_memcpy dst src n :
  0 <= n <= Z.of_nat (length src) ->
  bytes_of (memcpy dst src n) n = bytes_of src n.
Proof.
  intros Hn. unfold bytes_of, memcpy.
  rewrite take_app_le by (rewrite length_take; lia).
  apply take_idemp.
Qed.

Lemma forward_to_spec msg j w :
  0 <= j ->
  hdr_length (msg_hdr msg) <= Z.of_nat (length (msg_raw msg)) ->
  0 <= hdr_length (msg_hdr msg) ->
  is_Some (sockets (handler w) !! Z.to_nat j) ->
  exists w1,
    forward_to msg j w = (Ok tt, w1) /\
    trace w1 =
      trace w ++ match shape (sockets (handler w)) !! Z.to_nat j with
                 | Some (Some size) =>
                     forward_event (address (handler w)) msg (Z.to_nat j) size
                 | _ => []
                 end /\
    shape (sockets (handler w1)) = shape (sockets (handler w)) /\
    address (handler w1) = address (handler w) /\
    manager (handler w1) = manager (handler w) /\
    num_sockets (handler w1) = num_sockets (handler w).
Proof.
  intros Hj Hraw Hlen [slot Hs].
  unfold forward_to, socket_at. unfold_M.
  rewrite (proj2 (load_Ok _ _ _) (conj Hj Hs)).
  unfold shape. rewrite list_lookup_fmap, Hs. simpl.
  destruct slot as [s|]; simpl.
  - rewrite (check_and_forward_spec _ _ _ _ Hs). unfold forward_event.
    destruct (forwardable _ _).
    + destruct (send_data_size s <? hdr_length (msg_hdr msg)).
      * eexists. split; [reflexivity |]. simpl. split_and!; done.
      * eexists. split; [reflexivity |]. simpl. split_and!; try done.
        -- rewrite bytes_of_memcpy by lia. done.
        -- rewrite list_fmap_insert. simpl. apply list_insert_id.
           rewrite list_lookup_fmap, Hs. done.
    + eexists. split; [reflexivity |]. rewrite app_nil_r. split_and!; done.
  - eexists. split; [reflexivity |]. rewrite app_nil_r. split_and!; done.
Qed.

Lemma forward_from_spec msg n : forall j w,
  0 <= j ->
  hdr_length (msg_hdr msg) <= Z.of_nat (length (msg_raw msg)) ->
  0 <= hdr_length (msg_hdr msg) ->
  j + Z.of_nat n <= Z.of_nat (length (sockets (handler w))) ->
  exists w1,
    forward_from msg n j w = (Ok tt, w1) /\
    trace w1 =
      trace w ++ forward_events (address (handler w)) msg
                   (shape (sockets (handler w))) n j /\
    shape (sockets (handler w1)) = shape (sockets (handler w)) /\
    address (handler w1) = address (handler w) /\
    manager (handler w1) = manager (handler w) /\
    num_sockets (handler w1) = num_sockets (handler w).
Proof.
  induction n as [|n IH]; intros j w Hj Hraw Hlen Hn.
  - exists w. simpl. unfold_M. rewrite app_nil_r. split_and!; done.
  - destruct (forward_to_spec msg j w) as (w1 & Hf & Ht & Hsh & Ha & Hm & Hns);
      auto.
    { apply lookup_lt_is_Some. lia. }
    assert (Hl : length (sockets (handler w1)) = length (sockets (handler w))).
    { apply (f_equal length) in Hsh. unfold shape in Hsh.
      rewrite !length_fmap in Hsh. done. }
    destruct (IH (j + 1) w1) as (w2 & Hf2 & Ht2 & Hsh2 & Ha2 & Hm2 & Hns2);
      auto; try lia.
    exists w2. split_and!; try congruence.
    + simpl. unfold_M. rewrite Hf. exact Hf2.
    + rewrite Ht2, Ht, Hsh, Ha, <- app_assoc. reflexivity.
Qed.

Lemma sends_on_forward_event a msg j size k :
  sends_on k (forward_event a msg j size) =
    if decide (j = k) then
      if forwardable a msg && negb (size <? hdr_length (msg_hdr msg)) then
        [(hdr_address (msg_hdr msg), bytes_of (msg_raw msg) (hdr_length (msg_hdr msg)))]
      else []
    else [].
Proof.
  unfold forward_event, sends_on.
  destruct (forwardable a msg); simpl; [| by destruct (decide _)].
  destruct (size <? hdr_length (msg_hdr msg)); simpl; [by destruct (decide _) |].
  destruct (decide (j = k)); reflexivity.
Qed.

Lemma sends_on_forward_events a msg sh k n : forall j,
  0 <= j ->
  sends_on k (forward_events a msg sh n j) =
    if decide (j <= Z.of_nat k < j + Z.of_nat n) then
      match sh !! k with
      | Some (Some size) =>
          if forwardable a msg && negb (size <? hdr_length (msg_hdr msg)) then
            [(hdr_address (msg_hdr msg),
              bytes_of (msg_raw msg) (hdr_length (msg_hdr msg)))]
          else []
      | _ => []
      end
    else [].
Proof.
  induction n as [|n IH]; intros j Hj; simpl.
  - destruct (decide _); [lia | reflexivity].
  - unfold sends_on in *. rewrite omap_app. rewrite IH by lia.
    fold (sends_on k (match sh !! Z.to_nat j with
                      | Some (Some size) => forward_event a msg (Z.to_nat j) size
                      | _ => []
                      end)).
    destruct (decide (Z.to_nat j = k)) as [<-|Hne].
    + rewrite Z2Nat.id by lia.
      destruct (decide (j + 1 <= j < _)); [lia |].
      destruct (decide (j <= j < _)); [| lia].
      rewrite app_nil_r.
      destruct (sh !! Z.to_nat j) as [[size|]|]; try reflexivity.
      rewrite sends_on_forward_event. destruct (decide _); [reflexivity | done].
    + assert (Hnil : sends_on k
                (match sh !! Z.to_nat j with
                 | Some (Some size) => forward_event a msg (Z.to_nat j) size
                 | _ => []
                 end) = []).
      { destruct (sh !! Z.to_nat j) as [[size|]|]; try reflexivity.
        rewrite sends_on_forward_event. destruct (decide _); [done | reflexivity]. }
      rewrite Hnil. simpl.
      destruct (decide (j + 1 <= _ < _)), (decide (j <= _ < _)); try lia; reflexivity.
Qed.

(** *** Transmissions *)

Lemma write_tracker_quiet i t : emits_only not_send (write_tracker i t).
Proof. unfold write_tracker. emits. Qed.

Lemma free_tracker_quiet i : emits_only not_send (free_tracker i).
Proof. unfold free_tracker. emits. apply write_tracker_quiet. Qed.

Lemma handle_msg_quiet msg : emits_only not_send (handle_msg msg).
Proof.
  unfold handle_msg. emits;
    first [apply free_tracker_quiet | apply write_tracker_quiet].
Qed.

Lemma run_program_quiet type arg : emits_only not_send (run_program type arg).
Proof. unfold run_program. emits. Qed.

Lemma sensor_loop_quiet sensors : emits_only not_send (sensor_loop sensors).
Proof.
  induction sensors as [|sensor rest IH]; simpl; emits.
  - apply run_program_quiet.
  - exact IH.
Qed.

Lemma deref_quiet p : emits_only not_send (deref p).
Proof. unfold deref. emits. Qed.

Lemma update_socket_quiet k s : emits_only not_send (update_socket k s).
Proof. unfold update_socket. emits. Qed.

(** A message from the serial port is answered on the serial port. *)
Lemma dispatch_serial_quiet msg serial_socket config :
  emits_only not_send (dispatch msg None serial_socket config).
Proof.
  unfold dispatch. emits;
    first [ apply handle_msg_quiet | apply deref_quiet | apply update_socket_quiet
          | apply sensor_loop_quiet ].
Qed.

Lemma process_msg_serial_quiet msg serial_socket config :
  emits_only not_send (process_msg msg None serial_socket config).
Proof.
  unfold process_msg. emits; apply dispatch_serial_quiet.
Qed.

Lemma sends_on_quiet k evs : Forall not_send evs -> sends_on k evs = [].
Proof.
  induction 1 as [|e evs He _ IH]; [reflexivity |].
  unfold sends_on in *. destruct e; simpl in *; done.
Qed.

(** A message from a socket is answered on that socket, if at all. *)
Lemma dispatch_socket_quiet msg k serial_socket config j :
  j <> k ->
  emits_only (not_send_on j) (dispatch msg (Some k) serial_socket config).
Proof.
  intros Hjk. unfold dispatch. emits;
    first [ apply (emits_weaken not_send), handle_msg_quiet; apply not_send_not_on
          | apply (emits_weaken not_send), deref_quiet; apply not_send_not_on
          | apply (emits_weaken not_send), update_socket_quiet; apply not_send_not_on
          | apply (emits_weaken not_send), sensor_loop_quiet; apply not_send_not_on ].
Qed.

Lemma process_msg_socket_quiet msg k serial_socket config j :
  j <> k ->
  emits_only (not_send_on j) (process_msg msg (Some k) serial_socket config).
Proof.
  intros Hjk. unfold process_msg. emits; by apply dispatch_socket_quiet.
Qed.

Lemma check_socket_quiet rx k serial_socket config j :
  j <> k ->
  emits_only (not_send_on j) (check_socket rx (Some k) serial_socket config).
Proof.
  intros Hjk. unfold check_socket. emits. by apply process_msg_socket_quiet.
Qed.

Lemma sends_on_none j evs : Forall (not_send_on j) evs -> sends_on j evs = [].
Proof.
  induction 1 as [|e evs He _ IH]; [reflexivity |].
  unfold sends_on in *. simpl. unfold not_send_on in He. rewrite He. exact IH.
Qed.

Lemma shape_length ss ss' : shape ss = shape ss' -> length ss = length ss'.
Proof.
  intros Hsh. apply (f_equal length) in Hsh. unfold shape in Hsh.
  rewrite !length_fmap in Hsh. done.
Qed.

Lemma shape_lookup ss k :
  shape ss !! k = (fun o : option Socket => send_data_size <$> o) <$> ss !! k.
Proof. unfold shape. apply list_lookup_fmap. Qed.

(** [check_serial] on a message: the acknowledgement and the forwarding
    loop, and then the rest from the world they leave. *)
Lemma check_serial_unfold msg offset now config w :
  in_buffer msg ->
  sockets_covered (handler w) ->
  exists w1,
    trace w1 =
      trace w ++ [EvSerialPrintln HMTL_ACK]
              ++ forward_events (address (handler w)) msg
                   (shape (sockets (handler w)))
                   (Z.to_nat (num_sockets (handler w))) 0 /\
    shape (sockets (handler w1)) = shape (sockets (handler w)) /\
    address (handler w1) = address (handler w) /\
    manager (handler w1) = manager (handler w) /\
    check_serial (Some msg) offset now config w =
      (serial_socket ← socket_at 0;
       update ← process_msg msg None serial_socket config;
       modify (set_serial_received now);;
       mret update) w1.
Proof.
  intros [Hl0 Hl] [Hn0 Hn].
  destruct (forward_from_spec msg (Z.to_nat (num_sockets (handler w))) 0
              (logged [EvSerialPrintln HMTL_ACK] (after_read offset w)))
    as (w1 & Hf & Ht & Hsh & Ha & Hm & _); simpl; try lia.
  exists w1. simpl in *. split_and!; auto.
  - rewrite Ht, <- app_assoc. reflexivity.
  - unfold check_serial. unfold_M. simpl.
    unfold logged, after_read, with_handler in Hf. simpl in Hf.
    rewrite Hf. reflexivity.
Qed.

(** C4, as amended. A message received on the serial port whose
    destination is broadcast or not this node's address is transmitted
    exactly once, as it is, on every socket of the array that is not NULL
    and whose send buffer holds it, and on no other.  A broadcast message of
    the right version is dispatched here, from whichever transport it came:
    after the forwarding, [check_serial] runs the [switch] on it, and
    [check_socket] runs the [switch] on the one its socket received.  A
    message received on a socket is transmitted on no other socket. *)
Theorem serial_message_forwarded_once (msg : message) (offset now : Z)
    (config : config_hdr_t) (w : world) :
  in_buffer msg ->
  sockets_covered (handler w) ->
  hdr_address (msg_hdr msg) <> address (handler w) \/
    hdr_address (msg_hdr msg) = SOCKET_ADDR_ANY ->
  (exists evs,
     trace (check_serial (Some msg) offset now config w).2 = trace w ++ evs /\
     forall k,
       sends_on k evs =
         if decide (Z.of_nat k < num_sockets (handler w)) then
           match sockets (handler w) !! k with
           | Some (Some s) =>
               if send_data_size s <? hdr_length (msg_hdr msg) then []
               else [(hdr_address (msg_hdr msg),
                      bytes_of (msg_raw msg) (hdr_length (msg_hdr msg)))]
           | _ => []
           end
         else []) /\
  (hdr_address (msg_hdr msg) = SOCKET_ADDR_ANY ->
   hdr_version (msg_hdr msg) = HMTL_MSG_VERSION ->
   exists w1,
     address (handler w1) = address (handler w) /\
     manager (handler w1) = manager (handler w) /\
     check_serial (Some msg) offset now config w =
       (serial_socket ← socket_at 0;
        update ← dispatch msg None serial_socket config;
        modify (set_serial_received now);;
        mret update) w1) /\
  (hdr_address (msg_hdr msg) = SOCKET_ADDR_ANY ->
   hdr_version (msg_hdr msg) = HMTL_MSG_VERSION ->
   forall socket serial_socket,
     check_socket (Some msg) socket serial_socket config w =
       (update ← dispatch msg socket serial_socket config;
        mret (if update : bool then true else false)) w) /\
  (forall rx k serial_socket j,
     j <> k ->
     exists evs,
       trace (check_socket rx (Some k) serial_socket config w).2 = trace w ++ evs /\
       sends_on j evs = []).
Proof.
  intros Hbuf Hcov Hfwd.
  destruct (check_serial_unfold msg offset now config w Hbuf Hcov)
    as (w1 & Ht & Hsh & Ha & Hm & Heq).
  assert (Hq : emits_only not_send
                 (serial_socket ← socket_at 0;
                  update ← process_msg msg None serial_socket config;
                  modify (set_serial_received now);;
                  mret update)).
  { unfold socket_at. emits. apply process_msg_serial_quiet. }
  destruct (Hq w1) as (evs1 & Ht1 & Hp1).
  assert (Hfw : forwardable (address (handler w)) msg = true).
  { unfold forwardable.
    destruct Hfwd as [Hne| ->].
    - destruct (Z.eqb_spec (hdr_address (msg_hdr msg)) (address (handler w)));
        [done | reflexivity].
    - rewrite Z.eqb_refl. apply orb_true_r. }
  split_and!.
  - eexists. split.
    + rewrite Heq, Ht1, Ht, <- !app_assoc. reflexivity.
    + intros k. unfold sends_on. rewrite !omap_app. simpl.
      fold (sends_on k evs1). rewrite (sends_on_quiet k evs1 Hp1), app_nil_r.
      fold (sends_on k (forward_events (address (handler w)) msg
                          (shape (sockets (handler w)))
                          (Z.to_nat (num_sockets (handler w))) 0)).
      rewrite sends_on_forward_events by lia.
      destruct Hcov as [Hn0 Hn].
      destruct (decide (0 <= Z.of_nat k < _)), (decide (Z.of_nat k < _));
        try lia; [| reflexivity].
      rewrite shape_lookup.
      destruct (sockets (handler w) !! k) as [[s|]|]; simpl; try reflexivity.
      rewrite Hfw. simpl.
      destruct (send_data_size s <? hdr_length (msg_hdr msg)); reflexivity.
  - intros Hany Hv. exists w1. split_and!; auto.
    rewrite Heq. unfold_M.
    destruct (socket_at 0 w1) as [[ss|f] w2]; [| reflexivity].
    rewrite process_msg_broadcast by done. reflexivity.
  - intros Hany Hv socket ss. unfold check_socket. unfold_M.
    rewrite process_msg_broadcast by done. reflexivity.
  - intros rx k ss j Hjk.
    destruct (check_socket_quiet rx k ss config j Hjk w) as (evs & Hevs & Hp).
    exists evs. split; [done |]. by apply sends_on_none.
Qed.

(** *** SET_ADDR *)

Lemma process_msg_switch msg src serial_socket config w :
  reaches_switch msg (address (handler w)) ->
  process_msg msg src serial_socket config w = dispatch msg src serial_socket config w.
Proof.
  intros [Hv [Hany | [Hown Hack]]].
  - by apply process_msg_broadcast.
  - by apply process_msg_own.
Qed.

Lemma matches_device_test msg config :
  matches_device msg config ->
  (sa_device_id (msg_set_addr msg) =? 0)
  || (sa_device_id (msg_set_addr msg) =? device_id config) = true.
Proof.
  intros [-> | ->]; rewrite Z.eqb_refl; [reflexivity | apply orb_true_r].
Qed.

(** C10. A set-address message that reaches the [switch] with the
    device identifier 0 or this node's sets the address and then writes it
    through the source socket: with the NULL source of a message from the
    serial port this is a NULL dereference, in [process_msg] and so in
    [check_serial]; with the socket the message arrived on, [process_msg]
    returns and the socket's source address is the new one. *)
Theorem set_addr_needs_source_socket (msg : message) (config : config_hdr_t)
    (offset now : Z) (w : world) :
  reaches_switch msg (address (handler w)) ->
  hdr_type (msg_hdr msg) = MSG_TYPE_SET_ADDR ->
  matches_device msg config ->
  (forall serial_socket,
     process_msg msg None serial_socket config w =
       (Fault NullPointer,
        with_handler (set_address (sa_address (msg_set_addr msg)) (handler w)) w)) /\
  (in_buffer msg -> sockets_covered (handler w) -> 0 < num_sockets (handler w) ->
   (check_serial (Some msg) offset now config w).1 = Fault NullPointer) /\
  (forall k s serial_socket,
     sockets (handler w) !! k = Some (Some s) ->
     process_msg msg (Some k) serial_socket config w =
       (Ok false,
        with_handler
          (set_sockets
             (<[k := Some (set_sourceAddress (sa_address (msg_set_addr msg)) s)]>
                (sockets (handler w)))
             (set_address (sa_address (msg_set_addr msg)) (handler w))) w)).
Proof.
  intros Hsw Hty Hdev. split_and!.
  - intros ss. rewrite process_msg_switch, dispatch_set_addr by done.
    rewrite matches_device_test by done. reflexivity.
  - intros Hbuf Hcov Hpos.
    destruct (check_serial_unfold msg offset now config w Hbuf Hcov)
      as (w1 & _ & Hsh & Ha & _ & ->).
    unfold_M. unfold socket_at. unfold_M.
    assert (Hlen : length (sockets (handler w1)) = length (sockets (handler w)))
      by (apply shape_length; done).
    destruct (sockets (handler w1)) as [|s0 rest] eqn:Es.
    { destruct Hcov. simpl in Hlen. lia. }
    simpl.
    rewrite process_msg_switch, dispatch_set_addr by (rewrite ?Ha; done).
    rewrite matches_device_test by done. reflexivity.
  - intros k s ss Hs. rewrite process_msg_switch, dispatch_set_addr by done.
    rewrite matches_device_test by done.
    rewrite (deref_live k s) by done. reflexivity.
Qed.

(** *** POLL *)

Lemma dispatch_poll_socket msg k s serial_socket config w :
  hdr_type (msg_hdr msg) = MSG_TYPE_POLL ->
  sockets (handler w) !! k = Some (Some s) ->
  dispatch msg (Some k) serial_socket config w =
    let r := poll_response msg s (sourceFromData s msg) config w in
    (Ok false,
     logged
       ((if hdr_address (msg_hdr msg) =? SOCKET_ADDR_ANY
         then [EvDelay (delayMs (address (handler w)))] else [])
        ++ [EvSendMsgTo k (sourceFromData s msg) (bytes_of r.2 r.1)])
       (with_handler
          (set_sockets (<[k := Some (set_send_buffer r.2 s)]> (sockets (handler w)))
             (handler w)) w)).
Proof.
  intros Hty Hs. destruct labels_ne as (Hne & _).
  unfold dispatch. rewrite Hty.
  destruct (Z.eqb_spec MSG_TYPE_POLL MSG_TYPE_OUTPUT); [congruence |].
  rewrite Z.eqb_refl. unfold_M. unfold update_socket. unfold_M.
  rewrite !(deref_live _ _ _ Hs). simpl.
  unfold poll_response, logged, with_handler. simpl.
  destruct (hdr_address (msg_hdr msg) =? SOCKET_ADDR_ANY); simpl;
    rewrite <- ?app_assoc; reflexivity.
Qed.

Lemma dispatch_poll_serial msg j s config w :
  hdr_type (msg_hdr msg) = MSG_TYPE_POLL ->
  sockets (handler w) !! j = Some (Some s) ->
  dispatch msg None (Some j) config w =
    let r := poll_response msg s 0 config w in
    (Ok false,
     logged [EvSerialWrite (bytes_of r.2 r.1)]
       (with_handler
          (set_sockets (<[j := Some (set_send_buffer r.2 s)]> (sockets (handler w)))
             (handler w)) w)).
Proof.
  intros Hty Hs. destruct labels_ne as (Hne & _).
  unfold dispatch. rewrite Hty.
  destruct (Z.eqb_spec MSG_TYPE_POLL MSG_TYPE_OUTPUT); [congruence |].
  rewrite Z.eqb_refl. unfold_M. unfold update_socket. unfold_M.
  rewrite !(deref_live _ _ _ Hs). reflexivity.
Qed.

Lemma delayMs_exact a : 0 <= a -> a * 2 < 2 ^ (INT_BITS - 1) -> delayMs a = a * 2.
Proof.
  intros Ha Hr. unfold delayMs, to_int.
  pose proof INT_BITS_min as Hb.
  assert (2 ^ (INT_BITS - 1) < 2 ^ INT_BITS) by (apply Z.pow_lt_mono_r; lia).
  rewrite Z.mod_small by lia.
  destruct (Z.ltb_spec (a * 2) (2 ^ (INT_BITS - 1))); lia.
Qed.

(** C8, as amended. A poll that arrived on a bus socket is answered on
    that socket, after [delay(delayMs)] when its destination is broadcast
    and at once otherwise; a poll that arrived on the serial port is
    answered there at once, broadcast or not.  [delayMs] is twice the
    address when that is in the range of [int], and then it is monotone in
    the address. *)
Theorem bus_broadcast_poll_delayed (msg : message) (config : config_hdr_t) (w : world) :
  reaches_switch msg (address (handler w)) ->
  hdr_type (msg_hdr msg) = MSG_TYPE_POLL ->
  (forall k s serial_socket,
     sockets (handler w) !! k = Some (Some s) ->
     (process_msg msg (Some k) serial_socket config w).1 = Ok false /\
     trace (process_msg msg (Some k) serial_socket config w).2 =
       trace w
       ++ (if hdr_address (msg_hdr msg) =? SOCKET_ADDR_ANY
           then [EvDelay (delayMs (address (handler w)))] else [])
       ++ [EvSendMsgTo k (sourceFromData s msg)
             (bytes_of (poll_response msg s (sourceFromData s msg) config w).2
                (poll_response msg s (sourceFromData s msg) config w).1)]) /\
  (forall j s,
     sockets (handler w) !! j = Some (Some s) ->
     (process_msg msg None (Some j) config w).1 = Ok false /\
     trace (process_msg msg None (Some j) config w).2 =
       trace w
       ++ [EvSerialWrite
             (bytes_of (poll_response msg s 0 config w).2
                (poll_response msg s 0 config w).1)]) /\
  (forall a, 0 <= a -> a * 2 < 2 ^ (INT_BITS - 1) -> delayMs a = a * 2) /\
  (forall a1 a2, 0 <= a1 -> a1 < a2 -> a2 * 2 < 2 ^ (INT_BITS - 1) ->
     delayMs a1 <= delayMs a2).
Proof.
  intros Hsw Hty. split_and!.
  - intros k s ss Hs.
    rewrite process_msg_switch, (dispatch_poll_socket _ _ _ _ _ _ Hty Hs) by done.
    simpl. done.
  - intros j s Hs.
    rewrite process_msg_switch, (dispatch_poll_serial _ _ _ _ _ Hty Hs) by done.
    done.
  - apply delayMs_exact.
  - intros a1 a2 H1 H2 H3. rewrite !delayMs_exact by lia. lia.
Qed.

(** X2. A message of the right version for another node (not this
    address, not broadcast) is not dispatched: [process_msg] returns false
    and changes nothing. *)
Theorem process_msg_ignores_other_address (msg : message)
    (src serial_socket : option nat) (config : config_hdr_t) (w : world) :
  hdr_version (msg_hdr msg) = HMTL_MSG_VERSION ->
  hdr_address (msg_hdr msg) <> address (handler w) ->
  hdr_address (msg_hdr msg) <> SOCKET_ADDR_ANY ->
  process_msg msg src serial_socket config w = (Ok false, w).
Proof.
  intros Hv Ha Hany. rewrite process_msg_cases by done.
  destruct (Z.eqb_spec (hdr_address (msg_hdr msg)) (address (handler w))); [done |].
  destruct (Z.eqb_spec (hdr_address (msg_hdr msg)) SOCKET_ADDR_ANY); [done |].
  reflexivity.
Qed.

End MessageHandlerFacts.

(** ** The table of programs *)

Section LookupFacts.
Context `{Headers}.

Lemma lookup_from_spec fs id n : forall i,
  0 <= i ->
  i + Z.of_nat n <= Z.of_nat (length fs) ->
  exists r, lookup_from fs id n i = Ok r /\
    match r with
    | Some p =>
        i <= Z.of_nat p < i + Z.of_nat n /\
        (exists entry, fs !! p = Some entry /\ prog_type entry = id) /\
        forall q entry, i <= Z.of_nat q < Z.of_nat p -> fs !! q = Some entry ->
                        prog_type entry <> id
    | None =>
        forall q entry, i <= Z.of_nat q < i + Z.of_nat n -> fs !! q = Some entry ->
                        prog_type entry <> id
    end.
Proof.
  induction n as [|n IH]; intros i Hi Hn; simpl.
  - exists None. split; [done |]. intros; lia.
  - destruct (lookup_lt_is_Some_2 fs (Z.to_nat i) ltac:(lia)) as [f Hf].
    rewrite (proj2 (load_Ok _ _ _) (conj Hi Hf)).
    destruct (Z.eqb_spec (prog_type f) id) as [Hid|Hid].
    + exists (Some (Z.to_nat i)). split; [done |]. split_and!; try lia; eauto.
    + destruct (IH (i + 1) ltac:(lia) ltac:(lia)) as (r & Hr & Hspec).
      exists r. split; [done |].
      destruct r as [p|].
      * destruct Hspec as (Hp & He & Hbefore). split_and!; try lia; auto.
        intros q entry Hq Hqe.
        destruct (decide (Z.of_nat q = i)) as [Heq|Hne].
        -- assert (q = Z.to_nat i) as -> by lia. congruence.
        -- apply (Hbefore q); auto. lia.
      * intros q entry Hq Hqe.
        destruct (decide (Z.of_nat q = i)) as [Heq|Hne].
        -- assert (q = Z.to_nat i) as -> by lia. congruence.
        -- apply (Hspec q); auto. lia.
Qed.

(** X3. With [num_programs] entries or more in the table,
    [lookup_function] returns: the first entry of the given type among the
    first [num_programs], or NULL when none of them has it. *)
Theorem lookup_function_first_match (id : Z) (pm : ProgramManager) :
  0 <= num_programs pm <= Z.of_nat (length (functions pm)) ->
  exists r, lookup_function id pm = Ok r /\
    match r with
    | Some p =>
        Z.of_nat p < num_programs pm /\
        (exists entry, functions pm !! p = Some entry /\ prog_type entry = id) /\
        forall q entry, (q < p)%nat -> functions pm !! q = Some entry ->
                        prog_type entry <> id
    | None =>
        forall q entry, Z.of_nat q < num_programs pm ->
                        functions pm !! q = Some entry -> prog_type entry <> id
    end.
Proof.
  intros [Hn0 Hn].
  destruct (lookup_from_spec (functions pm) id (Z.to_nat (num_programs pm)) 0)
    as (r & Hr & Hspec); [lia | lia |].
  exists r. split; [exact Hr |].
  destruct r as [p|].
  - destruct Hspec as (Hp & He & Hbefore). split_and!; try lia; auto.
    intros q entry Hq. apply Hbefore. lia.
  - intros q entry Hq. apply Hspec. lia.
Qed.

End LookupFacts.

(** ** One slot at a time *)

Lemma slot_effect_same i w evs :
  (forall j b, replay j b evs = Some b) -> slot_effect i w (logged evs w).
Proof. intros Hl. exists evs. simpl. auto. Qed.

Lemma slot_effect_refl i w : slot_effect i w w.
Proof.
  exists []. rewrite app_nil_r. split_and!; auto.
Qed.

Lemma replay_app i evs1 : forall b evs2,
  replay i b (evs1 ++ evs2) = replay i b evs1 ≫= fun b' => replay i b' evs2.
Proof.
  induction evs1 as [|e evs1 IH]; intros b evs2; [reflexivity |].
  destruct e; simpl; try apply IH;
    destruct (_ =? i); try apply IH; destruct b; try apply IH; reflexivity.
Qed.

Lemma replay_release i slot j b :
  replay j (if i =? j then is_held slot else b) (release_events i slot) =
    Some (if i =? j then false else b).
Proof.
  destruct slot as [t|]; simpl; [destruct (pt_state t) |]; simpl;
    destruct (i =? j); reflexivity.
Qed.

Ltac replays := intros ? ?; simpl; try destruct (_ =? _); reflexivity.

Ltac slot_changed old :=
  first
    [ eexists; simpl; rewrite <- ?app_assoc;
      (split; [reflexivity |]); (split; [reflexivity |]);
      right; eexists old, (Some _); split_and!; eauto; replays
    | exists []; simpl; rewrite ?app_nil_r;
      (split; [reflexivity |]); (split; [reflexivity |]);
      right; eexists old, (Some _); split_and!; eauto; replays ].

Section SlotEffect.
Context `{Headers}.

Lemma free_tracker_effect i w : slot_effect i w (free_tracker i w).2.
Proof.
  destruct (load (trackers (manager (handler w))) i) as [slot|f] eqn:El.
  - apply load_Ok in El as [Hi Hs].
    rewrite (free_tracker_spec _ slot) by done. simpl.
    exists (release_events i slot). split_and!; auto.
    right. exists slot, None. split_and!; auto.
    intros j b. apply replay_release.
  - unfold free_tracker. unfold_M. rewrite El. apply slot_effect_refl.
Qed.

Lemma handle_msg_effect msg w :
  slot_effect (oh_output (mp_hdr msg)) w (handle_msg msg w).2.
Proof.
  unfold handle_msg. unfold_M.
  destruct (lookup_function (mp_type msg) (manager (handler w))) as [[p|]|];
    simpl; [| apply (slot_effect_same _ _ [_]); replays | by apply slot_effect_refl].
  destruct (num_outputs (manager (handler w)) <? oh_output (mp_hdr msg));
    [apply (slot_effect_same _ _ [_]); replays |].
  destruct (load (outputs (manager (handler w))) (oh_output (mp_hdr msg)))
    as [[o|]|]; simpl;
    [| apply (slot_effect_same _ _ [_]); replays | by apply slot_effect_refl].
  destruct (load (trackers (manager (handler w))) (oh_output (mp_hdr msg)))
    as [slot|] eqn:Es; simpl; [| by apply slot_effect_refl].
  apply load_Ok in Es as [Hi Hs].
  destruct (load (functions (manager (handler w))) (Z.of_nat p)) as [entry|];
    simpl; [| by apply slot_effect_refl].
  destruct (prog_type entry =? HMTL_PROGRAM_NONE).
  { pose proof (free_tracker_effect (oh_output (mp_hdr msg)) w) as He.
    destruct (free_tracker (oh_output (mp_hdr msg)) w) as [[[]|f] w1]; exact He. }
  assert (Hlen : (Z.to_nat (oh_output (mp_hdr msg))
                  < length (trackers (manager (handler w))))%nat)
    by (eapply lookup_lt_Some; eauto).
  destruct slot as [t|]; simpl.
  - destruct (pt_state t); simpl;
      (erewrite write_tracker_spec by (simpl; eauto); simpl;
       destruct (setup entry) as [f|]; simpl;
       [ erewrite write_tracker_spec
           by (simpl; eauto; apply list_lookup_insert_eq; auto);
         simpl; rewrite list_insert_insert_eq
       | ];
       slot_changed (Some t)).
  - erewrite write_tracker_spec by (simpl; eauto). simpl.
    erewrite write_tracker_spec
      by (simpl; eauto; apply list_lookup_insert_eq; auto).
    simpl. rewrite list_insert_insert_eq.
    destruct (setup entry) as [f|]; simpl;
      [ erewrite write_tracker_spec
          by (simpl; eauto; apply list_lookup_insert_eq; auto);
        simpl; rewrite list_insert_insert_eq
      | ];
      slot_changed (@None program_tracker_t).
Qed.

End SlotEffect.

Section HandleMsgFrame.
Context `{Headers}.

(** X4. Whenever [handle_msg] returns false it has printed one diagnostic
    and done nothing else: no tracker was freed or allocated, no slot
    written. *)
Theorem handle_msg_failure_keeps_state (msg : msg_program_t) (w w' : world) :
  handle_msg msg w = (Ok false, w') ->
  exists s v, w' = logged [EvDebugValue s v] w.
Proof.
  unfold handle_msg, free_tracker, write_tracker. unfold_M. intros Hrun.
  repeat (case_match; simplify_eq; simpl in *; eauto).
Qed.

(** X5. Whatever its outcome, [handle_msg] leaves the outputs, the
    objects, the table, the count of outputs, the address and the sockets
    as they are, and of the trackers it changes at most the slot of the
    message's output. *)
Theorem handle_msg_touches_one_slot (msg : msg_program_t) (w : world) :
  outputs (manager (handler (handle_msg msg w).2)) = outputs (manager (handler w)) /\
  objects (manager (handler (handle_msg msg w).2)) = objects (manager (handler w)) /\
  functions (manager (handler (handle_msg msg w).2)) = functions (manager (handler w)) /\
  num_outputs (manager (handler (handle_msg msg w).2)) = num_outputs (manager (handler w)) /\
  address (handler (handle_msg msg w).2) = address (handler w) /\
  sockets (handler (handle_msg msg w).2) = sockets (handler w) /\
  length (trackers (manager (handler (handle_msg msg w).2)))
    = length (trackers (manager (handler w))) /\
  forall j : nat,
    j <> Z.to_nat (oh_output (mp_hdr msg)) ->
    trackers (manager (handler (handle_msg msg w).2)) !! j
      = trackers (manager (handler w)) !! j.
Proof.
  destruct (handle_msg_effect msg w) as (evs & _ & _ & [[-> _] | Hch]).
  - split_and!; auto.
  - destruct Hch as (old & new & _ & _ & -> & _). simpl.
    split_and!; auto.
    + apply length_insert.
    + intros j Hj. apply list_lookup_insert_ne. auto.
Qed.

End HandleMsgFrame.

(** ** The tick, exactly *)

Section TickFacts.
Context `{Headers}.

Lemma agree_tick j pm pm1 k :
  agree_from j pm pm1 -> j <= k ->
  tick_step pm1 k = tick_step pm k /\ tick_events pm1 k = tick_events pm k /\
  tick_tracker pm1 k = tick_tracker pm k /\ tick_changed pm1 k = tick_changed pm k.
Proof.
  intros [Hf Ha] Hk. destruct (Ha k Hk) as (Ht & Ho & Hb).
  assert (Hs : tick_step pm1 k = tick_step pm k).
  { unfold tick_step, entry_of. rewrite Ht, Ho, Hb, Hf. reflexivity. }
  unfold tick_events, tick_tracker, tick_changed, entry_of.
  rewrite Hs, Ht, Hb. auto.
Qed.

Lemma agree_tick_from j pm pm1 n : forall k,
  agree_from j pm pm1 -> j <= k ->
  tick_events_from pm1 n k = tick_events_from pm n k /\
  tick_changed_from pm1 n k = tick_changed_from pm n k.
Proof.
  induction n as [|n IH]; intros k Ha Hk; simpl; [done |].
  destruct (agree_tick j pm pm1 k Ha Hk) as (_ & -> & _ & ->).
  destruct (IH (k + 1) Ha ltac:(lia)) as [-> ->]. done.
Qed.

(** One iteration of the loop of [run], exactly. *)
Lemma run_output_exact j updated w :
  runnable j (j + 1) (manager (handler w)) ->
  0 <= j ->
  exists w1,
    run_output j updated w = (Ok (tick_changed (manager (handler w)) j || updated), w1) /\
    trace w1 = trace w ++ tick_events (manager (handler w)) j /\
    junk w1 = junk w /\
    address (handler w1) = address (handler w) /\
    sockets (handler w1) = sockets (handler w) /\
    num_outputs (manager (handler w1)) = num_outputs (manager (handler w)) /\
    trackers (manager (handler w1)) =
      <[Z.to_nat j := tick_tracker (manager (handler w)) j]>
        (trackers (manager (handler w))) /\
    agree_from (j + 1) (manager (handler w)) (manager (handler w1)).
Proof.
  intros Hr Hj.
  destruct (Hr j ltac:(lia)) as ([o Ho] & [b Hb] & slot & Hs & Hstep).
  unfold run_output. unfold_M.
  rewrite (proj2 (load_Ok _ _ _) (conj Hj Hs)).
  unfold tick_changed, tick_events, tick_tracker, tick_step, entry_of.
  rewrite Hs, ?Ho, ?Hb. simpl.
  destruct slot as [t|].
  - fold (is_done t). destruct (is_done t) eqn:Ed.
    + rewrite (free_tracker_spec _ (Some t)) by auto.
      eexists. split; [reflexivity |]. simpl. split_and!; auto.
      split; [done |]. intros k Hk. simpl.
      rewrite list_lookup_insert_ne by lia. done.
    + destruct (Hstep t eq_refl Ed) as (entry & f & Hent & Hf).
      rewrite (proj2 (load_Ok _ _ _)
                 (conj (Nat2Z.is_nonneg _)
                    (eq_ind_r (fun n => _ !! n = _) Hent (Nat2Z.id _)))).
      rewrite Hent, Hf. simpl.
      rewrite (proj2 (load_Ok _ _ _) (conj Hj Ho)).
      rewrite (proj2 (load_Ok _ _ _) (conj Hj Hb)).
      erewrite write_output_spec by (simpl; eauto). simpl.
      erewrite write_object_spec by (simpl; eauto). simpl.
      erewrite write_tracker_spec by (simpl; eauto). simpl.
      eexists. split.
      { destruct (sr_changed _); reflexivity. }
      simpl. split_and!; auto.
      split; [done |]. intros k Hk. simpl.
      rewrite !list_lookup_insert_ne by lia. done.
  - exists w. rewrite app_nil_r. split_and!; auto.
    + symmetry. apply list_insert_id. done.
    + split; [done |]. intros; done.
Qed.

Lemma runnable_agree j hi pm pm1 :
  agree_from j pm pm1 -> runnable j hi pm -> runnable j hi pm1.
Proof.
  intros [Hf Ha] Hr k Hk.
  destruct (Ha k ltac:(lia)) as (-> & -> & ->).
  destruct (Hr k Hk) as (Ho & Hb & slot & Hs & Hstep).
  split_and!; auto. exists slot. split; auto.
  intros t Ht Hd. rewrite Hf. eauto.
Qed.

Lemma run_from_exact n : forall j updated w,
  0 <= j ->
  runnable j (j + Z.of_nat n) (manager (handler w)) ->
  exists w',
    run_from n j updated w =
      (Ok (tick_changed_from (manager (handler w)) n j || updated), w') /\
    trace w' = trace w ++ tick_events_from (manager (handler w)) n j /\
    junk w' = junk w /\
    address (handler w') = address (handler w) /\
    sockets (handler w') = sockets (handler w) /\
    num_outputs (manager (handler w')) = num_outputs (manager (handler w)) /\
    functions (manager (handler w')) = functions (manager (handler w)) /\
    length (trackers (manager (handler w'))) = length (trackers (manager (handler w))) /\
    forall k, 0 <= k ->
      trackers (manager (handler w')) !! Z.to_nat k =
        if decide (j <= k < j + Z.of_nat n)
        then Some (tick_tracker (manager (handler w)) k)
        else trackers (manager (handler w)) !! Z.to_nat k.
Proof.
  induction n as [|n IH]; intros j updated w Hj Hr.
  - exists w. simpl. unfold_M. rewrite app_nil_r. split_and!; auto.
    intros k Hk. destruct (decide _); [lia | done].
  - destruct (run_output_exact j updated w) as
      (w1 & Hrun & Ht & Hjunk & Ha & Hso & Hno & Htr & Hag); auto.
    { intros k Hk. apply Hr. lia. }
    assert (Hr1 : runnable (j + 1) (j + 1 + Z.of_nat n) (manager (handler w1))).
    { eapply runnable_agree; eauto. intros k Hk. apply Hr. lia. }
    destruct (IH (j + 1) (tick_changed (manager (handler w)) j || updated) w1
                ltac:(lia) Hr1)
      as (w' & Hrest & Ht' & Hjunk' & Ha' & Hso' & Hno' & Hf' & Hlen' & Htr').
    destruct (agree_tick_from (j + 1) (manager (handler w)) (manager (handler w1))
                n (j + 1) Hag ltac:(lia)) as [Hev Hch].
    exists w'. split_and!; try congruence.
    + simpl. unfold_M. rewrite Hrun, Hrest, Hch.
      f_equal. f_equal. rewrite orb_assoc, (orb_comm (tick_changed_from _ _ _)). done.
    + simpl. rewrite Ht', Ht, Hev, app_assoc. done.
    + destruct Hag as [Hf _]. congruence.
    + rewrite Hlen', Htr. apply length_insert.
    + intros k Hk. rewrite (Htr' k Hk).
      destruct (Hr j ltac:(lia)) as (_ & _ & slot & Hs & _).
      destruct (decide (k = j)) as [->|Hne].
      * destruct (decide (j + 1 <= j < _)); [lia |].
        destruct (decide (j <= j < _)); [| lia].
        rewrite Htr. apply list_lookup_insert_eq. eapply lookup_lt_Some; eauto.
      * destruct (decide (j + 1 <= k < _)), (decide (j <= k < _)); try lia.
        -- f_equal. apply (agree_tick (j + 1)); auto. lia.
        -- rewrite Htr. apply list_lookup_insert_ne. lia.
Qed.

(** X6. The tick, exactly.  [run] goes through the outputs in order; for
    each it frees a tracker that is done, steps once a tracker that is not,
    and passes over an empty slot.  Its events are those of the outputs in
    order, its result is whether a step reported a change, and afterwards
    each slot holds what its own iteration left. *)
Theorem run_steps_each_live_tracker_once (w : world) :
  can_run (manager (handler w)) ->
  0 <= num_outputs (manager (handler w)) ->
  exists w',
    run w =
      (Ok (tick_changed_from (manager (handler w))
             (Z.to_nat (num_outputs (manager (handler w)))) 0), w') /\
    trace w' =
      trace w ++ tick_events_from (manager (handler w))
                   (Z.to_nat (num_outputs (manager (handler w)))) 0 /\
    address (handler w') = address (handler w) /\
    sockets (handler w') = sockets (handler w) /\
    functions (manager (handler w')) = functions (manager (handler w)) /\
    forall k, 0 <= k ->
      trackers (manager (handler w')) !! Z.to_nat k =
        if decide (k < num_outputs (manager (handler w)))
        then Some (tick_tracker (manager (handler w)) k)
        else trackers (manager (handler w)) !! Z.to_nat k.
Proof.
  intros Hr Hn.
  destruct (run_from_exact (Z.to_nat (num_outputs (manager (handler w)))) 0 false w)
    as (w' & Hrun & Ht & _ & Ha & Hs & _ & Hf & _ & Htr); [lia | |].
  { unfold can_run in Hr. rewrite Z2Nat.id by lia. exact Hr. }
  exists w'. split_and!; auto.
  - unfold run. unfold_M. rewrite Hrun, orb_false_r. done.
  - intros k Hk. rewrite (Htr k Hk).
    destruct (decide (0 <= k < _)), (decide (k < _)); try lia; done.
Qed.

End TickFacts.

(** ** Trackers are allocated and freed in turn *)

Lemma held_insert h i old new j :
  0 <= i ->
  trackers (manager h) !! Z.to_nat i = Some old ->
  held (set_manager (set_trackers (<[Z.to_nat i := new]> (trackers (manager h)))
                       (manager h)) h) j
    = if i =? j then is_held new else held h j.
Proof.
  intros Hi Hs. unfold held. simpl.
  assert (Hlen : (Z.to_nat i < length (trackers (manager h)))%nat)
    by (eapply lookup_lt_Some; eauto).
  destruct (Z.eqb_spec i j) as [<- | Hne].
  - destruct (Z.leb_spec 0 i); [| lia].
    rewrite list_lookup_insert_eq by done. reflexivity.
  - destruct (Z.leb_spec 0 j); [| reflexivity].
    rewrite list_lookup_insert_ne by lia. reflexivity.
Qed.

Lemma held_slot h i old j :
  0 <= i ->
  trackers (manager h) !! Z.to_nat i = Some old ->
  held h j = if i =? j then is_held old else held h j.
Proof.
  intros Hi Hs. destruct (Z.eqb_spec i j) as [<- | Hne]; [| reflexivity].
  unfold held. destruct (Z.leb_spec 0 i); [| lia]. rewrite Hs. reflexivity.
Qed.

Lemma slot_effect_alternates i w w' :
  slot_effect i w w' ->
  exists evs,
    trace w' = trace w ++ evs /\
    forall j, replay j (held (handler w) j) evs = Some (held (handler w') j).
Proof.
  intros (evs & Ht & _ & [[Hh Hl] | (old & new & Hi & Hs & Hh & Hl)]);
    exists evs; (split; [exact Ht |]); intros j; rewrite Hh.
  - apply Hl.
  - rewrite (held_insert _ _ old) by done.
    rewrite (held_slot _ i old j) at 1 by done. apply Hl.
Qed.

Section Alternates.

Lemma alternates_same {A : Type} (m : M A) :
  (forall w, trace (m w).2 = trace w /\
             forall i, held (handler (m w).2) i = held (handler w) i) ->
  alternates m.
Proof.
  intros Hm w. destruct (Hm w) as [Ht Hh]. exists [].
  rewrite app_nil_r. split; [exact Ht |]. intros i. rewrite Hh. reflexivity.
Qed.

Lemma alternates_ret {A : Type} (a : A) : alternates (mret a).
Proof. apply alternates_same. intros w. split; reflexivity. Qed.

Lemma alternates_crash {A : Type} (f : fault) : alternates (crash f : M A).
Proof. apply alternates_same. intros w. split; reflexivity. Qed.

Lemma alternates_lift {A : Type} (r : outcome A) : alternates (lift r).
Proof. apply alternates_same. intros w. split; reflexivity. Qed.

Lemma alternates_gets {A : Type} (f : MessageHandler -> A) : alternates (gets f).
Proof. apply alternates_same. intros w. split; reflexivity. Qed.

Lemma alternates_modify (f : MessageHandler -> MessageHandler) :
  (forall h, trackers (manager (f h)) = trackers (manager h)) ->
  alternates (modify f).
Proof.
  intros Hf. apply alternates_same. intros w. split; [reflexivity |].
  intros i. unfold held. simpl. rewrite Hf. reflexivity.
Qed.

Lemma alternates_emit (e : event) :
  (forall j b, replay j b [e] = Some b) -> alternates (emit e).
Proof.
  intros He w. exists [e]. split; [reflexivity |]. intros i. apply He.
Qed.

Lemma alternates_bind {A B : Type} (m : M A) (k : A -> M B) :
  alternates m -> (forall a, alternates (k a)) -> alternates (m ≫= k).
Proof.
  intros Hm Hk w. unfold_M. destruct (Hm w) as (evs1 & Ht1 & Hr1).
  destruct (m w) as [[a|f] w1]; simpl in *.
  - destruct (Hk a w1) as (evs2 & Ht2 & Hr2).
    exists (evs1 ++ evs2). split.
    + rewrite Ht2, Ht1, app_assoc. reflexivity.
    + intros i. rewrite replay_app, Hr1. simpl. apply Hr2.
  - exists evs1. auto.
Qed.

Lemma alternates_update_manager (g : ProgramManager -> ProgramManager) :
  (forall pm, trackers (g pm) = trackers pm) ->
  alternates (gets manager ≫= fun pm => modify (set_manager (g pm))).
Proof.
  intros Hg. apply alternates_same. intros w. split; [reflexivity |].
  intros i. unfold held. simpl. rewrite Hg. reflexivity.
Qed.

End Alternates.

Ltac alternates_step :=
  match goal with
  | |- alternates (mret _) => apply alternates_ret
  | |- alternates (crash _) => apply alternates_crash
  | |- alternates (lift _) => apply alternates_lift
  | |- alternates (gets _) => apply alternates_gets
  | |- alternates (modify _) => apply alternates_modify; intros ?; reflexivity
  | |- alternates (emit _) => apply alternates_emit; intros ? ?; reflexivity
  | |- alternates (gets manager ≫= _) =>
      apply alternates_update_manager; intros ?; reflexivity
  | |- alternates (_ ≫= _) => apply alternates_bind; [| intros ?]
  | |- alternates (match ?x with _ => _ end) => destruct x
  | |- alternates (let (_, _) := ?x in _) => destruct x
  end.

Ltac alternating := repeat alternates_step.

Section AlternatesFacts.
Context `{Headers} `{Externals}.

Lemma handle_msg_alternates msg : alternates (handle_msg msg).
Proof. intros w. eapply slot_effect_alternates, handle_msg_effect. Qed.

Lemma free_tracker_alternates i : alternates (free_tracker i).
Proof. intros w. eapply slot_effect_alternates, free_tracker_effect. Qed.

Lemma run_output_alternates i updated : alternates (run_output i updated).
Proof.
  intros w. unfold run_output. unfold_M.
  assert (Hsame : exists evs,
            trace w = trace w ++ evs /\
            forall j, replay j (held (handler w) j) evs = Some (held (handler w) j)).
  { exists []. rewrite app_nil_r. auto. }
  destruct (load (trackers (manager (handler w))) i) as [[t|]|] eqn:Es;
    simpl; try exact Hsame.
  apply load_Ok in Es as [Hi Hs].
  destruct (negb _).
  { pose proof (free_tracker_alternates i w) as Hk.
    destruct (free_tracker i w) as [[[]|f] w1]; exact Hk. }
  destruct (load (functions _) _) as [entry|]; simpl; try exact Hsame.
  destruct (program entry) as [f|]; simpl; try exact Hsame.
  destruct (load (outputs _) _) as [out|] eqn:Eo; simpl; try exact Hsame.
  destruct (load (objects _) _) as [obj|] eqn:Eb; simpl; try exact Hsame.
  apply load_Ok in Eo as [_ Eo]. apply load_Ok in Eb as [_ Eb].
  erewrite write_output_spec by (simpl; eauto). simpl.
  erewrite write_object_spec by (simpl; eauto). simpl.
  erewrite write_tracker_spec by (simpl; eauto). simpl.
  eexists. split; [reflexivity |]. intros j. simpl.
  f_equal. unfold held. simpl.
  destruct (Z.leb_spec 0 j); [| reflexivity].
  destruct (decide (Z.to_nat i = Z.to_nat j)) as [<- | Hne].
  - rewrite list_lookup_insert_eq by (eapply lookup_lt_Some; eauto).
    rewrite Hs. reflexivity.
  - rewrite list_lookup_insert_ne by done. reflexivity.
Qed.

Lemma run_from_alternates n : forall i updated, alternates (run_from n i updated).
Proof.
  induction n as [|n IH]; intros i updated; simpl; alternating.
  - apply run_output_alternates.
  - apply IH.
Qed.

Lemma run_alternates : alternates run.
Proof. unfold run. alternating. apply run_from_alternates. Qed.

Lemma run_program_alternates type arg : alternates (run_program type arg).
Proof. unfold run_program. alternating. Qed.

Lemma sensor_loop_alternates sensors : alternates (sensor_loop sensors).
Proof.
  induction sensors as [|sensor rest IH]; simpl; alternating.
  - apply run_program_alternates.
  - exact IH.
Qed.

Lemma deref_alternates p : alternates (deref p).
Proof. unfold deref. alternating. Qed.

Lemma update_socket_alternates k s : alternates (update_socket k s).
Proof. unfold update_socket. alternating. Qed.

Lemma socket_at_alternates i : alternates (socket_at i).
Proof. unfold socket_at. alternating. Qed.

Lemma check_and_forward_alternates msg p : alternates (check_and_forward msg p).
Proof.
  unfold check_and_forward. alternating;
    first [apply deref_alternates | apply update_socket_alternates].
Qed.

Lemma dispatch_alternates msg src serial_socket config :
  alternates (dispatch msg src serial_socket config).
Proof.
  unfold dispatch. alternating;
    first [ apply handle_msg_alternates | apply deref_alternates
          | apply update_socket_alternates | apply sensor_loop_alternates ].
Qed.

Lemma process_msg_alternates msg src serial_socket config :
  alternates (process_msg msg src serial_socket config).
Proof. unfold process_msg. alternating; apply dispatch_alternates. Qed.

Lemma forward_from_alternates msg n : forall i, alternates (forward_from msg n i).
Proof.
  induction n as [|n IH]; intros i; simpl; alternating.
  - unfold forward_to. alternating;
      first [apply socket_at_alternates | apply check_and_forward_alternates].
  - apply IH.
Qed.

Lemma check_serial_alternates rx offset now config :
  alternates (check_serial rx offset now config).
Proof.
  unfold check_serial. alternating;
    first [ apply forward_from_alternates | apply socket_at_alternates
          | apply process_msg_alternates ].
Qed.

Lemma check_socket_alternates rx p q config : alternates (check_socket rx p q config).
Proof. unfold check_socket. alternating. apply process_msg_alternates. Qed.

Lemma check_from_alternates rx config n : forall i update,
  alternates (check_from rx config n i update).
Proof.
  induction n as [|n IH]; intros i update; simpl; alternating;
    first [apply socket_at_alternates | apply check_socket_alternates | apply IH].
Qed.

(** X7. Trackers are allocated and freed in turn.  In the trace of
    [handle_msg], of [run], of [check], and of [check] followed by [run],
    whatever their outcome and for every slot, the calls of [malloc] and
    [free] for the tracker of the slot alternate: the first is a [free] when
    the slot held a tracker before and a [malloc] when it was NULL, and
    afterwards the slot holds a tracker exactly when the last of them was
    the [malloc], or when it held one and there was no call.  So no tracker
    is freed twice, and none is allocated for a slot that holds one.  This
    is about the trackers themselves, not what [tracker->state] points
    to. *)
Theorem trackers_allocated_and_freed_in_turn (rx_serial : option message)
    (offset now : Z) (rx : Z -> option message) (config : config_hdr_t)
    (msg : msg_program_t) :
  alternates (handle_msg msg) /\
  alternates run /\
  alternates (check rx_serial offset now rx config) /\
  alternates (check rx_serial offset now rx config ≫= fun _ => run).
Proof.
  assert (Hc : alternates (check rx_serial offset now rx config)).
  { unfold check. alternating;
      first [apply check_serial_alternates | apply check_from_alternates]. }
  split_and!.
  - apply handle_msg_alternates.
  - apply run_alternates.
  - exact Hc.
  - apply alternates_bind; [exact Hc |]. intros _. apply run_alternates.
Qed.

End AlternatesFacts.

(** ** The life of a tracker *)

Section LifecycleFacts.
Context `{Headers}.

(** X8. [free_tracker] on a slot of the array leaves it NULL, with the
    events of the release of what it held; a second call frees nothing and
    changes nothing. *)
Theorem free_tracker_idempotent (i : Z) (slot : option program_tracker_t) (w : world) :
  0 <= i ->
  trackers (manager (handler w)) !! Z.to_nat i = Some slot ->
  exists w1,
    free_tracker i w = (Ok tt, w1) /\
    trackers (manager (handler w1)) !! Z.to_nat i = Some None /\
    trace w1 = trace w ++ release_events i slot /\
    free_tracker i w1 = (Ok tt, w1).
Proof.
  intros Hi Hs.
  assert (Hlen : (Z.to_nat i < length (trackers (manager (handler w))))%nat)
    by (eapply lookup_lt_Some; eauto).
  eexists. split; [apply (free_tracker_spec _ slot); done |].
  split_and!.
  - simpl. apply list_lookup_insert_eq. done.
  - reflexivity.
  - rewrite (free_tracker_spec _ None); simpl; auto.
    + rewrite list_insert_insert_eq, app_nil_r. reflexivity.
    + apply list_lookup_insert_eq. done.
Qed.

(** *** The constructor *)

Lemma clear_from_spec n : forall ts i,
  0 <= i ->
  i + Z.of_nat n <= Z.of_nat (length ts) ->
  exists ts',
    clear_from ts n i = Ok ts' /\
    length ts' = length ts /\
    forall k : nat,
      ts' !! k =
        if decide (i <= Z.of_nat k < i + Z.of_nat n) then Some None else ts !! k.
Proof.
  induction n as [|n IH]; intros ts i Hi Hn; simpl.
  - exists ts. split_and!; auto. intros k. destruct (decide _); [lia | done].
  - rewrite store_Ok by (try apply lookup_lt_is_Some; lia).
    destruct (IH (<[Z.to_nat i := None]> ts) (i + 1)) as (ts' & Hc & Hl & Hk);
      [lia | rewrite length_insert; lia |].
    exists ts'. split_and!; auto.
    + rewrite Hl. apply length_insert.
    + intros k. rewrite Hk.
      destruct (decide (Z.of_nat k = i)) as [Heq|Hne].
      * destruct (decide (i + 1 <= _ < _)); [lia |].
        destruct (decide (i <= _ < _)); [| lia].
        assert (k = Z.to_nat i) as -> by lia.
        apply list_lookup_insert_eq. lia.
      * rewrite list_lookup_insert_ne by lia.
        destruct (decide (i + 1 <= _ < _)), (decide (i <= _ < _)); try lia; done.
Qed.

Lemma clear_from_short n : forall ts i,
  0 <= i <= Z.of_nat (length ts) ->
  Z.of_nat (length ts) < i + Z.of_nat n ->
  clear_from ts n i = Fault OutOfBounds.
Proof.
  induction n as [|n IH]; intros ts i Hi Hn; simpl; [lia |].
  unfold store. destruct (Z.ltb_spec i 0); [lia |].
  destruct (ts !! Z.to_nat i) eqn:E; [| reflexivity].
  apply lookup_lt_Some in E.
  apply IH; rewrite length_insert; lia.
Qed.

(** A world whose slots for the outputs from [j] on are all empty. *)
Lemma run_from_idle n : forall j updated w,
  0 <= j ->
  (forall k, j <= k < j + Z.of_nat n ->
     trackers (manager (handler w)) !! Z.to_nat k = Some None) ->
  run_from n j updated w = (Ok updated, w).
Proof.
  induction n as [|n IH]; intros j updated w Hj Hs; simpl; [reflexivity |].
  unfold_M. unfold run_output. unfold_M.
  rewrite (proj2 (load_Ok _ _ _) (conj Hj (Hs j ltac:(lia)))).
  apply IH; [lia |]. intros k Hk. apply Hs. lia.
Qed.

(** X9. The constructor clears the first [num_outputs] slots of the array
    of trackers and leaves the others and the other arrays as they are, so
    that [run] on the new manager does nothing and returns false; with an
    array of fewer than [num_outputs] slots it writes beyond the array. *)
Theorem new_ProgramManager_has_no_trackers
    (os : list (option output_hdr_t)) (ts : list (option program_tracker_t))
    (bs : list (option blob)) (n : Z) (fs : list hmtl_program_t) (np : Z) :
  (0 <= n <= Z.of_nat (length ts) ->
   exists pm,
     new_ProgramManager os ts bs n fs np = Ok pm /\
     outputs pm = os /\ objects pm = bs /\ num_outputs pm = n /\
     functions pm = fs /\ num_programs pm = np /\
     length (trackers pm) = length ts /\
     (forall k : nat,
        trackers pm !! k = if decide (Z.of_nat k < n) then Some None else ts !! k) /\
     forall h tr jk,
       run {| handler := set_manager pm h; trace := tr; junk := jk |} =
         (Ok false, {| handler := set_manager pm h; trace := tr; junk := jk |})) /\
  (Z.of_nat (length ts) < n ->
   new_ProgramManager os ts bs n fs np = Fault OutOfBounds).
Proof.
  split.
  - intros [Hn0 Hn].
    destruct (clear_from_spec (Z.to_nat n) ts 0) as (ts' & Hc & Hl & Hk); [lia | lia |].
    unfold new_ProgramManager. rewrite Hc.
    eexists. split; [reflexivity |]. simpl. split_and!; auto.
    + intros k. rewrite Hk.
      destruct (decide (0 <= _ < _)), (decide (_ < n)); try lia; done.
    + intros h tr jk. unfold run. unfold_M. simpl.
      apply run_from_idle; [lia |]. simpl. intros k Hkr.
      rewrite Hk. destruct (decide _); [done | lia].
  - intros Hn. unfold new_ProgramManager.
    rewrite clear_from_short by lia. reflexivity.
Qed.

(** A successful assignment leaves the tracker that the setup function
    made of the reset one. *)
Lemma handle_msg_true_slot msg p w w' :
  handle_msg msg w = (Ok true, w') ->
  lookup_function (mp_type msg) (manager (handler w)) = Ok (Some p) ->
  mp_type msg <> HMTL_PROGRAM_NONE ->
  exists entry f t,
    functions (manager (handler w)) !! p = Some entry /\
    setup entry = Some f /\
    functions (manager (handler w')) = functions (manager (handler w)) /\
    0 <= oh_output (mp_hdr msg) /\
    trackers (manager (handler w')) !! Z.to_nat (oh_output (mp_hdr msg)) =
      Some (Some (f msg (set_program_flags p 0 t)).2).
Proof.
  intros Hrun Hlook Hnone.
  destruct (lookup_function_Some _ _ _ Hlook) as (entry & Hfn & Hty & Hent).
  unfold handle_msg in Hrun. unfold_M. rewrite Hlook in Hrun.
  destruct (_ <? _); [discriminate |].
  destruct (load (outputs _) _) as [[o|]|]; try discriminate.
  destruct (load (trackers _) _) as [slot|] eqn:Es; try discriminate.
  apply load_Ok in Es as [Hi Hs].
  rewrite Hent in Hrun.
  destruct (Z.eqb_spec (prog_type entry) HMTL_PROGRAM_NONE); [congruence |].
  assert (Hlen : (Z.to_nat (oh_output (mp_hdr msg))
                  < length (trackers (manager (handler w))))%nat)
    by (eapply lookup_lt_Some; eauto).
  exists entry.
  destruct slot as [t|]; simpl in Hrun.
  - destruct (pt_state t); simpl in Hrun;
      erewrite write_tracker_spec in Hrun by (simpl; eauto); simpl in Hrun;
      (destruct (setup entry) as [f|]; [| discriminate]); simpl in Hrun;
      erewrite write_tracker_spec in Hrun
        by (simpl; eauto; apply list_lookup_insert_eq; auto);
      simpl in Hrun; injection Hrun as <-; simpl;
      exists f, t; split_and!; auto;
      apply list_lookup_insert_eq; rewrite length_insert; auto.
  - erewrite write_tracker_spec in Hrun by (simpl; eauto). simpl in Hrun.
    erewrite write_tracker_spec in Hrun
      by (simpl; eauto; apply list_lookup_insert_eq; auto).
    simpl in Hrun.
    destruct (setup entry) as [f|]; [| discriminate]. simpl in Hrun.
    erewrite write_tracker_spec in Hrun
      by (simpl; eauto; apply list_lookup_insert_eq; rewrite length_insert; auto).
    simpl in Hrun. injection Hrun as <-. simpl.
    exists f, (junk w). split_and!; auto.
    apply list_lookup_insert_eq. rewrite !length_insert. auto.
Qed.

Lemma tick_events_in pm n : forall j k e,
  j <= k < j + Z.of_nat n -> e ∈ tick_events pm k -> e ∈ tick_events_from pm n j.
Proof.
  induction n as [|n IH]; intros j k e Hk He; simpl; [lia |].
  apply elem_of_app.
  destruct (decide (k = j)) as [->|Hne]; [auto |].
  right. apply (IH (j + 1) k); auto. lia.
Qed.

(** X10. A program that [handle_msg] has assigned to an output within
    [num_outputs] is stepped by the next [run], for that output and with
    its object, when the setup function keeps the header of the tracker. *)
Theorem assigned_program_stepped_next_tick (msg : msg_program_t) (p : nat)
    (w w' : world) :
  handle_msg msg w = (Ok true, w') ->
  lookup_function (mp_type msg) (manager (handler w)) = Ok (Some p) ->
  mp_type msg <> HMTL_PROGRAM_NONE ->
  (forall entry f, functions (manager (handler w)) !! p = Some entry ->
                   setup entry = Some f -> setup_keeps_header f) ->
  oh_output (mp_hdr msg) < num_outputs (manager (handler w')) ->
  can_run (manager (handler w')) ->
  exists updated w'' evs,
    run w' = (Ok updated, w'') /\
    trace w'' = trace w' ++ evs /\
    EvStep p (Some (oh_output (mp_hdr msg)))
      (entry_of (objects (manager (handler w'))) (oh_output (mp_hdr msg))) ∈ evs.
Proof.
  intros Hrun Hlook Hnone Hkeep Hi Hcan.
  destruct (handle_msg_true_slot _ _ _ _ Hrun Hlook Hnone)
    as (entry & f & t & Hfn & Hsetup & Hfs & Hi0 & Hslot).
  destruct (Hkeep entry f Hfn Hsetup msg (set_program_flags p 0 t)) as [Hp Hf].
  simpl in Hp, Hf.
  destruct (run_from_exact (Z.to_nat (num_outputs (manager (handler w')))) 0 false w')
    as (w'' & Hr & Ht & _); [lia | |].
  { unfold can_run in Hcan. rewrite Z2Nat.id by lia. exact Hcan. }
  do 3 eexists. split; [| split; [exact Ht |]].
  - unfold run. unfold_M. exact Hr.
  - apply (tick_events_in _ _ 0 (oh_output (mp_hdr msg))); [lia |].
    assert (Ht1 : entry_of (trackers (manager (handler w'))) (oh_output (mp_hdr msg))
                  = Some (f msg (set_program_flags p 0 t)).2)
      by (unfold entry_of; rewrite Hslot; reflexivity).
    unfold tick_events. rewrite Ht1.
    unfold is_done. rewrite Hf. simpl. rewrite Hp.
    apply list_elem_of_singleton. reflexivity.
Qed.

End LifecycleFacts.

(** ** Messages that do nothing, and messages that update *)

Section HandlerFacts.
Context `{Headers} `{Externals}.

Lemma forward_from_own msg n : forall j w,
  forwardable (address (handler w)) msg = false ->
  0 <= j ->
  j + Z.of_nat n <= Z.of_nat (length (sockets (handler w))) ->
  forward_from msg n j w = (Ok tt, w).
Proof.
  induction n as [|n IH]; intros j w Hf Hj Hn; simpl; [reflexivity |].
  destruct (lookup_lt_is_Some_2 (sockets (handler w)) (Z.to_nat j) ltac:(lia))
    as [slot Hs].
  unfold_M. unfold forward_to, socket_at. unfold_M.
  rewrite (proj2 (load_Ok _ _ _) (conj Hj Hs)).
  destruct slot as [s|]; simpl.
  - rewrite (check_and_forward_spec _ _ _ _ Hs), Hf. apply IH; auto; lia.
  - apply IH; auto; lia.
Qed.

(** X11. A message from the serial port for this node's own address is
    acknowledged and processed here, and is not forwarded: nothing is
    transmitted on any socket. *)
Theorem own_message_stays_off_the_bus (msg : message) (offset now : Z)
    (config : config_hdr_t) (w : world) :
  sockets_covered (handler w) ->
  hdr_address (msg_hdr msg) = address (handler w) ->
  hdr_address (msg_hdr msg) <> SOCKET_ADDR_ANY ->
  check_serial (Some msg) offset now config w =
    (serial_socket ← socket_at 0;
     update ← process_msg msg None serial_socket config;
     modify (set_serial_received now);;
     mret update) (logged [EvSerialPrintln HMTL_ACK] (after_read offset w)) /\
  exists evs,
    trace (check_serial (Some msg) offset now config w).2 = trace w ++ evs /\
    forall k, sends_on k evs = [].
Proof.
  intros [Hn0 Hn] Hown Hany.
  assert (Hf : forwardable (address (handler w)) msg = false).
  { unfold forwardable. rewrite Hown, Z.eqb_refl. simpl.
    rewrite <- Hown. destruct (Z.eqb_spec (hdr_address (msg_hdr msg)) SOCKET_ADDR_ANY);
      [done | reflexivity]. }
  assert (Heq : check_serial (Some msg) offset now config w =
    (serial_socket ← socket_at 0;
     update ← process_msg msg None serial_socket config;
     modify (set_serial_received now);;
     mret update) (logged [EvSerialPrintln HMTL_ACK] (after_read offset w))).
  { unfold check_serial. unfold_M. simpl.
    fold (after_read offset w).
    fold (logged [EvSerialPrintln HMTL_ACK] (after_read offset w)).
    rewrite forward_from_own; simpl; auto; lia. }
  split; [exact Heq |].
  assert (Hq : emits_only not_send
                 (serial_socket ← socket_at 0;
                  update ← process_msg msg None serial_socket config;
                  modify (set_serial_received now);;
                  mret update)).
  { unfold socket_at. emits. apply process_msg_serial_quiet. }
  destruct (Hq (logged [EvSerialPrintln HMTL_ACK] (after_read offset w))) as (evs & Ht & Hp).
  exists ([EvSerialPrintln HMTL_ACK] ++ evs). split.
  - rewrite Heq, Ht. simpl. rewrite <- app_assoc. reflexivity.
  - intros k. unfold sends_on. rewrite omap_app. simpl.
    apply (sends_on_quiet k evs Hp).
Qed.

(** X12. A message of another version is not processed: from a socket,
    [check_socket] returns false with the diagnostic and nothing else; from
    the serial port, [check_serial] returns false, the manager and the
    address stay as they are, and the time of the last serial message and
    the serial offset are set as for any message. *)
Theorem bad_version_not_processed (msg : message) (config : config_hdr_t) (offset now : Z)
    (w : world) :
  hdr_version (msg_hdr msg) <> HMTL_MSG_VERSION ->
  (forall src serial_socket,
     check_socket (Some msg) src serial_socket config w =
       (Ok false, logged [EvDebugErr "Invalid message version"] w)) /\
  (in_buffer msg -> sockets_covered (handler w) -> 0 < num_sockets (handler w) ->
   exists w',
     check_serial (Some msg) offset now config w = (Ok false, w') /\
     manager (handler w') = manager (handler w) /\
     address (handler w') = address (handler w) /\
     last_serial_ms (handler w') = now /\
     serial_msg_offset (handler w') = 0).
Proof.
  intros Hv.
  assert (Hp : forall src ss w0,
    process_msg msg src ss config w0 =
      (Ok false, logged [EvDebugErr "Invalid message version"] w0)).
  { intros src ss w0. unfold process_msg.
    destruct (Z.eqb_spec (hdr_version (msg_hdr msg)) HMTL_MSG_VERSION); [done |].
    reflexivity. }
  split.
  - intros src ss. unfold check_socket. unfold_M. rewrite Hp. reflexivity.
  - intros Hbuf Hcov Hpos.
    destruct (check_serial_unfold msg offset now config w Hbuf Hcov)
      as (w1 & _ & Hsh & Ha & Hm & ->).
    unfold_M. unfold socket_at. unfold_M.
    assert (Hlen : length (sockets (handler w1)) = length (sockets (handler w)))
      by (apply shape_length; done).
    destruct (sockets (handler w1)) as [|s0 rest] eqn:Es.
    { destruct Hcov. simpl in Hlen. lia. }
    simpl. rewrite Hp. simpl. eexists. split; [reflexivity |]. simpl. auto.
Qed.

(** X13. An output message that reaches the [switch] makes [process_msg]
    return true whatever [handle_msg] returns, refusals included; the world
    is the one that [handle_msg], or [hmtl_handle_output_msg] for the other
    output types, leaves. *)
Theorem output_message_reports_update (msg : message) (src serial_socket : option nat)
    (config : config_hdr_t) (w : world) :
  reaches_switch msg (address (handler w)) ->
  hdr_type (msg_hdr msg) = MSG_TYPE_OUTPUT ->
  process_msg msg src serial_socket config w =
    if oh_type (mp_hdr (msg_program msg)) =? HMTL_OUTPUT_PROGRAM then
      match handle_msg (msg_program msg) w with
      | (Ok _, w1) => (Ok true, w1)
      | (Fault f, w1) => (Fault f, w1)
      end
    else
      (Ok true,
       with_handler
         (set_manager
            (set_objects
               (hmtl_handle_output_msg msg (num_outputs (manager (handler w)))
                  (outputs (manager (handler w))) (objects (manager (handler w)))).2
               (set_outputs
                  (hmtl_handle_output_msg msg (num_outputs (manager (handler w)))
                     (outputs (manager (handler w))) (objects (manager (handler w)))).1
                  (manager (handler w))))
            (handler w)) w).
Proof.
  intros Hsw Hty. rewrite process_msg_switch by done.
  unfold dispatch. rewrite Hty, Z.eqb_refl. unfold_M.
  destruct (oh_type (mp_hdr (msg_program msg)) =? HMTL_OUTPUT_PROGRAM).
  - destruct (handle_msg (msg_program msg) w) as [[b|f] w1]; reflexivity.
  - reflexivity.
Qed.

(** X14. [process_msg] returns true only for a message of the right
    version, for this node or for all, of the type OUTPUT. *)
Theorem update_only_for_output_messages (msg : message)
    (src serial_socket : option nat) (config : config_hdr_t) (w w' : world) :
  process_msg msg src serial_socket config w = (Ok true, w') ->
  hdr_version (msg_hdr msg) = HMTL_MSG_VERSION /\
  (hdr_address (msg_hdr msg) = address (handler w) \/
   hdr_address (msg_hdr msg) = SOCKET_ADDR_ANY) /\
  hdr_type (msg_hdr msg) = MSG_TYPE_OUTPUT.
Proof.
  intros Hrun.
  destruct (Z.eqb_spec (hdr_version (msg_hdr msg)) HMTL_MSG_VERSION) as [Hv|Hv].
  2:{ unfold process_msg in Hrun.
      destruct (Z.eqb_spec (hdr_version (msg_hdr msg)) HMTL_MSG_VERSION); [done |].
      discriminate. }
  rewrite process_msg_cases in Hrun by done.
  assert (Hd : forall w0, dispatch msg src serial_socket config w0 = (Ok true, w') ->
               hdr_type (msg_hdr msg) = MSG_TYPE_OUTPUT).
  { intros w0 Hd. unfold dispatch in Hd.
    destruct (Z.eqb_spec (hdr_type (msg_hdr msg)) MSG_TYPE_OUTPUT); [done |].
    exfalso. unfold update_socket, deref in Hd. unfold_M.
    destruct (sensor_loop (msg_sensors msg) w0) as [[[]|] ?] eqn:Esl;
    repeat (case_match; simplify_eq; simpl in * ). }
  destruct (Z.eqb_spec (hdr_address (msg_hdr msg)) (address (handler w)));
    destruct (Z.eqb_spec (hdr_address (msg_hdr msg)) SOCKET_ADDR_ANY);
    simpl in Hrun; try discriminate;
    repeat (case_match; simplify_eq); eauto.
Qed.

Lemma check_from_idle config n : forall j update w,
  0 <= j ->
  j + Z.of_nat n <= Z.of_nat (length (sockets (handler w))) ->
  check_from (fun _ => None) config n j update w = (Ok update, w).
Proof.
  induction n as [|n IH]; intros j update w Hj Hn; simpl; [reflexivity |].
  destruct (lookup_lt_is_Some_2 (sockets (handler w)) (Z.to_nat j) ltac:(lia))
    as [slot Hs].
  unfold_M. unfold socket_at. unfold_M.
  rewrite (proj2 (load_Ok _ _ _) (conj Hj Hs)).
  destruct slot as [s|]; simpl; apply IH; lia.
Qed.

(** X15. With no complete message on the serial port and no message on
    any socket, [check] returns false and calls nothing; of the handler it
    writes the serial offset only, which is where the read of the serial
    port left it. *)
Theorem idle_check_moves_offset_only (offset now : Z) (config : config_hdr_t)
    (w : world) :
  sockets_covered (handler w) ->
  check None offset now (fun _ => None) config w = (Ok false, after_read offset w).
Proof.
  intros [Hn0 Hn]. unfold check. unfold_M. simpl.
  apply check_from_idle; simpl; lia.
Qed.

End HandlerFacts.

(** ** The ready line, sensor readings and the address *)

Section ScenarioFacts.
Context `{Headers} `{Externals} `{ReadyHeaders}.

(** X16. [serial_ready] returns; when it prints the ready line it records
    the time, and a call no more than [READY_RESEND_PERIOD] later prints
    nothing and changes nothing. *)
Theorem serial_ready_rate_limited (now later : Z) (w : world) :
  ulong_sub later now <= READY_RESEND_PERIOD ->
  exists w1,
    serial_ready now w = (Ok tt, w1) /\
    (trace w1 = trace w \/
     trace w1 = trace w ++ [EvSerialPrintln HMTL_READY] /\
     last_ready_ms (handler w1) = now /\
     serial_ready later w1 = (Ok tt, w1)).
Proof.
  intros Hl. unfold serial_ready at 1. unfold_M. simpl.
  destruct (_ && _).
  - eexists. split; [reflexivity |]. right. simpl. split_and!; auto.
    unfold serial_ready. unfold_M. simpl.
    destruct (Z.ltb_spec READY_RESEND_PERIOD (ulong_sub later now)); [lia |].
    rewrite andb_false_r. reflexivity.
  - exists w. auto.
Qed.

(** X17. [check_serial] records the time of a message from the serial
    port, and [serial_ready] prints nothing until more than
    [READY_THRESHOLD] has passed since. *)
Theorem serial_ready_waits_after_message (msg : message) (offset t now : Z)
    (config : config_hdr_t) (update : bool) (w w1 : world) :
  check_serial (Some msg) offset t config w = (Ok update, w1) ->
  ulong_sub now t <= READY_THRESHOLD ->
  last_serial_ms (handler w1) = t /\
  serial_ready now w1 = (Ok tt, w1).
Proof.
  intros Hc Hn.
  assert (Hl : last_serial_ms (handler w1) = t).
  { unfold check_serial in Hc. unfold_M.
    repeat (case_match; simplify_eq). reflexivity. }
  split; [exact Hl |].
  unfold serial_ready. unfold_M. simpl. rewrite Hl.
  destruct (Z.ltb_spec READY_THRESHOLD (ulong_sub now t)); [lia |].
  reflexivity.
Qed.

(** *** SENSOR *)

Lemma sensor_loop_registered sensors p entry f : forall w,
  lookup_function PROGRAM_SENSOR_DATA (manager (handler w)) = Ok (Some p) ->
  functions (manager (handler w)) !! p = Some entry ->
  program entry = Some f ->
  sensor_loop sensors w =
    (Ok tt, logged ((fun s => EvStep p None (Some s)) <$> sensors) w).
Proof.
  induction sensors as [|s rest IH]; intros w Hl He Hf; simpl.
  - unfold_M. unfold logged. rewrite app_nil_r. destruct w; reflexivity.
  - destruct (lookup_function_Some _ _ _ Hl) as (entry' & He' & _ & Hload).
    assert (entry' = entry) as -> by congruence.
    unfold_M. unfold run_program. unfold_M. rewrite Hl. simpl. rewrite Hload, Hf.
    simpl. rewrite IH by done. unfold logged. simpl.
    rewrite <- app_assoc. reflexivity.
Qed.

(** X18. A sensor message for this node or for all: without the ACK flag
    it does nothing; with it, the program registered for
    [PROGRAM_SENSOR_DATA] is called once for each reading, in order, after
    the echo to the serial port when the message is for this node alone.
    When no such program is registered, the first reading is a NULL
    dereference. *)
Theorem sensor_readings_dispatched (msg : message) (src serial_socket : option nat)
    (config : config_hdr_t) (w : world) :
  hdr_version (msg_hdr msg) = HMTL_MSG_VERSION ->
  hdr_address (msg_hdr msg) = SOCKET_ADDR_ANY \/
    hdr_address (msg_hdr msg) = address (handler w) ->
  hdr_type (msg_hdr msg) = MSG_TYPE_SENSOR ->
  (Z.land (hdr_flags (msg_hdr msg)) MSG_FLAG_ACK = 0 ->
   process_msg msg src serial_socket config w = (Ok false, w)) /\
  (Z.land (hdr_flags (msg_hdr msg)) MSG_FLAG_ACK <> 0 ->
   let pre := if hdr_address (msg_hdr msg) =? SOCKET_ADDR_ANY then [] else [echo msg] in
   (forall p entry f,
      lookup_function PROGRAM_SENSOR_DATA (manager (handler w)) = Ok (Some p) ->
      functions (manager (handler w)) !! p = Some entry ->
      program entry = Some f ->
      process_msg msg src serial_socket config w =
        (Ok false,
         logged (pre ++ ((fun s => EvStep p None (Some s)) <$> msg_sensors msg)) w)) /\
   (lookup_function PROGRAM_SENSOR_DATA (manager (handler w)) = Ok None ->
    msg_sensors msg <> [] ->
    process_msg msg src serial_socket config w = (Fault NullPointer, logged pre w))).
Proof.
  intros Hv Ha Hty. destruct labels_ne as (_ & _ & Hos & _ & Hps & Has).
  assert (Hd : forall w0, dispatch msg src serial_socket config w0 =
    match (if negb (Z.land (hdr_flags (msg_hdr msg)) MSG_FLAG_ACK =? 0)
           then sensor_loop (msg_sensors msg) else mret tt) w0 with
    | (Ok _, w1) => (Ok false, w1)
    | (Fault f, w1) => (Fault f, w1)
    end).
  { intros w0. unfold dispatch. rewrite Hty.
    destruct (Z.eqb_spec MSG_TYPE_SENSOR MSG_TYPE_OUTPUT); [congruence |].
    destruct (Z.eqb_spec MSG_TYPE_SENSOR MSG_TYPE_POLL); [congruence |].
    destruct (Z.eqb_spec MSG_TYPE_SENSOR MSG_TYPE_SET_ADDR); [congruence |].
    rewrite Z.eqb_refl. unfold_M.
    destruct (negb _); [| reflexivity].
    destruct (sensor_loop (msg_sensors msg) w0) as [[[]|f] w1]; reflexivity. }
  assert (Hc : (hdr_address (msg_hdr msg) =? address (handler w))
               || (hdr_address (msg_hdr msg) =? SOCKET_ADDR_ANY) = true).
  { destruct Ha as [-> | ->]; rewrite Z.eqb_refl; [apply orb_true_r | reflexivity]. }
  rewrite process_msg_cases, Hc, Hty, Z.eqb_refl by done. unfold has_ack.
  split.
  - intros Hack. rewrite Hack. simpl. rewrite Hd, Hack. reflexivity.
  - intros Hack.
    destruct (Z.eqb_spec (Z.land (hdr_flags (msg_hdr msg)) MSG_FLAG_ACK) 0); [done |].
    simpl.
    assert (Hw : (if negb (hdr_address (msg_hdr msg) =? SOCKET_ADDR_ANY)
                  then dispatch msg src serial_socket config (logged [echo msg] w)
                  else dispatch msg src serial_socket config w) =
                 dispatch msg src serial_socket config
                   (logged (if hdr_address (msg_hdr msg) =? SOCKET_ADDR_ANY
                            then [] else [echo msg]) w)).
    { destruct (hdr_address (msg_hdr msg) =? SOCKET_ADDR_ANY); simpl; [| reflexivity].
      unfold logged. rewrite app_nil_r. destruct w; reflexivity. }
    rewrite Hw, Hd.
    destruct (Z.eqb_spec (Z.land (hdr_flags (msg_hdr msg)) MSG_FLAG_ACK) 0); [done |].
    simpl. split.
    + intros p entry f Hl He Hf.
      rewrite (sensor_loop_registered _ p entry f) by done.
      unfold logged. simpl. rewrite <- app_assoc. reflexivity.
    + intros Hl Hne. destruct (msg_sensors msg) as [|s rest]; [done |].
      simpl. unfold_M. unfold run_program. unfold_M. simpl. rewrite Hl. reflexivity.
Qed.

(** *** SET_ADDR, and the messages after it *)

(** X19. A set-address message that arrives on a socket with the device
    identifier 0 or this node's changes the address and the source address
    of that socket and nothing else of the manager or the trace; from then
    on a message for another address is ignored, the former address
    included, and a poll for the new address is answered on the socket.
    With another device identifier the message changes nothing. *)
Theorem set_addr_changes_the_filter (m1 : message) (k : nat) (s : Socket)
    (serial_socket : option nat) (config : config_hdr_t) (w : world) :
  reaches_switch m1 (address (handler w)) ->
  hdr_type (msg_hdr m1) = MSG_TYPE_SET_ADDR ->
  sockets (handler w) !! k = Some (Some s) ->
  (matches_device m1 config ->
   exists w1,
     process_msg m1 (Some k) serial_socket config w = (Ok false, w1) /\
     address (handler w1) = sa_address (msg_set_addr m1) /\
     sockets (handler w1) !! k =
       Some (Some (set_sourceAddress (sa_address (msg_set_addr m1)) s)) /\
     manager (handler w1) = manager (handler w) /\
     trace w1 = trace w /\
     (forall m2 src ss,
        hdr_version (msg_hdr m2) = HMTL_MSG_VERSION ->
        hdr_address (msg_hdr m2) <> sa_address (msg_set_addr m1) ->
        hdr_address (msg_hdr m2) <> SOCKET_ADDR_ANY ->
        process_msg m2 src ss config w1 = (Ok false, w1)) /\
     (forall m2 ss,
        hdr_version (msg_hdr m2) = HMTL_MSG_VERSION ->
        hdr_type (msg_hdr m2) = MSG_TYPE_POLL ->
        hdr_address (msg_hdr m2) = sa_address (msg_set_addr m1) ->
        Z.land (hdr_flags (msg_hdr m2)) MSG_FLAG_ACK = 0 ->
        exists data,
          trace (process_msg m2 (Some k) ss config w1).2 =
            trace w1 ++ (if hdr_address (msg_hdr m2) =? SOCKET_ADDR_ANY
                         then [EvDelay (delayMs (sa_address (msg_set_addr m1)))]
                         else [])
                     ++ [EvSendMsgTo k
                           (sourceFromData
                              (set_sourceAddress (sa_address (msg_set_addr m1)) s) m2)
                           data])) /\
  (sa_device_id (msg_set_addr m1) <> 0 ->
   sa_device_id (msg_set_addr m1) <> device_id config ->
   forall src, process_msg m1 src serial_socket config w = (Ok false, w)).
Proof.
  intros Hsw Hty Hs. split.
  - intros Hdev.
    rewrite process_msg_switch, dispatch_set_addr by done.
    rewrite matches_device_test by done.
    rewrite (deref_live k s) by done.
    eexists. split; [reflexivity |]. simpl.
    assert (Hlen : (k < length (sockets (handler w)))%nat)
      by (eapply lookup_lt_Some; eauto).
    split_and!; auto.
    + apply list_lookup_insert_eq. done.
    + intros m2 src ss Hv Ha Hany. rewrite process_msg_cases by done. simpl.
      destruct (Z.eqb_spec (hdr_address (msg_hdr m2)) (sa_address (msg_set_addr m1)));
        [done |].
      destruct (Z.eqb_spec (hdr_address (msg_hdr m2)) SOCKET_ADDR_ANY); [done |].
      reflexivity.
    + intros m2 ss Hv Hty2 Ha Hack.
      rewrite process_msg_own by done.
      erewrite dispatch_poll_socket
        by (try done; simpl; apply list_lookup_insert_eq; done).
      simpl. eexists. reflexivity.
  - intros Hd0 Hd1 src.
    rewrite process_msg_switch, dispatch_set_addr by done.
    destruct (Z.eqb_spec (sa_device_id (msg_set_addr m1)) 0); [done |].
    destruct (Z.eqb_spec (sa_device_id (msg_set_addr m1)) (device_id config)); [done |].
    reflexivity.
Qed.

End ScenarioFacts.

(** ** The first ready line, and the result of check *)

Section CheckFacts.
Context `{Headers} `{Externals} `{ReadyHeaders}.

(** *** The first ready line *)

(** X20. A handler fresh from its constructor prints the ready line at
    the first call of [serial_ready] that comes later than both
    [READY_THRESHOLD] and [READY_RESEND_PERIOD] after the start of the
    clock, and nothing before. *)
Theorem fresh_handler_announces_ready (a : Z) (pm : ProgramManager)
    (ss : list (option Socket)) (n now : Z) (w : world) :
  handler w = new_MessageHandler a pm ss n ->
  0 <= now < 2 ^ ULONG_BITS ->
  serial_ready now w =
    if (READY_THRESHOLD <? now) && (READY_RESEND_PERIOD <? now) then
      (Ok tt,
       logged [EvSerialPrintln HMTL_READY]
         (with_handler (set_last_ready_ms now (handler w)) w))
    else (Ok tt, w).
Proof.
  intros Hh Hnow. destruct w as [h tr jk]. simpl in Hh. subst h.
  unfold serial_ready. unfold_M. simpl. unfold ulong_sub.
  rewrite Z.sub_0_r, Z.mod_small by lia.
  destruct (_ && _); reflexivity.
Qed.

(** *** check *)

Lemma check_from_sticky rx config n : forall j w,
  (check_from rx config n j true w).1 = Ok true \/
  exists f, (check_from rx config n j true w).1 = Fault f.
Proof.
  induction n as [|n IH]; intros j w; simpl; [left; reflexivity |].
  unfold_M.
  destruct (socket_at j w) as [[[k|]|f] w1]; simpl; eauto.
  destruct (check_socket (rx j) (Some k) (Some k) config w1) as [[[]|f] w2];
    simpl; eauto.
Qed.

(** X21. An update that the message from the serial port made is not
    lost: when [check_serial] returns true, [check] returns true, whatever
    arrives on the sockets, unless a later step of it faults. *)
Theorem check_reports_serial_update (rx_serial : option message)
    (offset now : Z) (rx : Z -> option message) (config : config_hdr_t)
    (w w1 : world) :
  check_serial rx_serial offset now config w = (Ok true, w1) ->
  (check rx_serial offset now rx config w).1 = Ok true \/
  exists f, (check rx_serial offset now rx config w).1 = Fault f.
Proof.
  intros Hs. unfold check. unfold_M. rewrite Hs. simpl.
  apply check_from_sticky.
Qed.

(** X22. So is one that the message on a socket made: when the serial
    port is idle and the message on socket [k] is processed, after the read
    of the serial port, with the result true, [check] returns true unless a
    later step of it faults. *)
Theorem check_reports_socket_update (k : nat) (s : Socket) (msg : message)
    (offset now : Z) (rx : Z -> option message) (config : config_hdr_t)
    (w w1 : world) :
  sockets_covered (handler w) ->
  Z.of_nat k < num_sockets (handler w) ->
  sockets (handler w) !! k = Some (Some s) ->
  (forall j, 0 <= j < Z.of_nat k -> rx j = None) ->
  rx (Z.of_nat k) = Some msg ->
  process_msg msg (Some k) (Some k) config (after_read offset w) = (Ok true, w1) ->
  (check None offset now rx config w).1 = Ok true \/
  exists f, (check None offset now rx config w).1 = Fault f.
Proof.
  intros [Hn0 Hn] Hk Hs Hidle Hrx Hp. unfold check. unfold_M. simpl.
  assert (Hgo : forall m j,
            0 <= j -> j + Z.of_nat m = Z.of_nat k ->
            forall n, check_from rx config (m + S n) j false (after_read offset w) =
                      check_from rx config n (Z.of_nat k + 1) true w1).
  { induction m as [|m IH]; intros j Hj Hjm n.
    - assert (j = Z.of_nat k) as -> by lia. simpl.
      unfold_M. unfold socket_at. unfold_M.
      assert (Hs' : sockets (handler w) !! Z.to_nat (Z.of_nat k) = Some (Some s))
        by (rewrite Nat2Z.id; exact Hs).
      simpl. rewrite (proj2 (load_Ok _ _ _) (conj Hj Hs')).
      simpl. rewrite Nat2Z.id. unfold check_socket. unfold_M. rewrite Hrx.
      fold (after_read offset w). rewrite Hp.
      reflexivity.
    - simpl. unfold_M. unfold socket_at. unfold_M.
      assert (Hlt : (Z.to_nat j < length (sockets (handler w)))%nat) by lia.
      destruct (lookup_lt_is_Some_2 _ _ Hlt) as [slot Hslot].
      simpl. rewrite (proj2 (load_Ok _ _ _) (conj Hj Hslot)). simpl.
      destruct slot as [s'|].
      + unfold check_socket. rewrite Hidle by lia. unfold_M. simpl.
        apply IH; lia.
      + apply IH; lia. }
  assert (Hsplit : Z.to_nat (num_sockets (handler w))
                   = (k + S (Z.to_nat (num_sockets (handler w)) - S k))%nat) by lia.
  fold (after_read offset w). rewrite Hsplit, (Hgo k 0) by lia.
  apply check_from_sticky.
Qed.

End CheckFacts.

(** * The sample node *)

Import Sample.

Lemma pm0_can_run : can_run pm0.
Proof.
  intros k Hk. simpl in Hk.
  assert (Hcase : k = 0 \/ k = 1) by lia.
  destruct Hcase as [-> | ->]; simpl; split_and!; eauto.
  - exists (Some running). split; [reflexivity |].
    intros t [= <-] _. exists blink_program, blink_step. split; reflexivity.
  - exists (Some finished). split; [reflexivity |].
    intros t [= <-] Hd. vm_compute in Hd. discriminate.
Qed.

Lemma blink_setup_keeps_header : setup_keeps_header blink_setup.
Proof. intros m t. split; reflexivity. Qed.

(** Output 0 is given a blink program in place of the one it runs. *)
Lemma handle_msg_assigns_program_witness :
  exists t0 t1,
    pt_program t0 = 1%nat /\ pt_flags t0 = 0 /\
    trace (handle_msg (program_msg 1 0) w0).2
      = [EvFreeState 0; EvSetup 1 (program_msg 1 0) 0 t0] /\
    trackers (manager (handler (handle_msg (program_msg 1 0) w0).2)) !! 0%nat
      = Some (Some t1) /\
    pt_program t1 = 1%nat /\ pt_flags t1 = 0.
Proof.
  destruct (handle_msg_assigns_program (program_msg 1 0) 1 w0
              (handle_msg (program_msg 1 0) w0).2)
    as (entry & f & slot & t0 & Hfn & _ & Hsetup & Hslot & _ & Hp & Hf & Htr & _
        & Hs & _ & Hkeep).
  - simpl. lia.
  - reflexivity.
  - simpl. lia.
  - reflexivity.
  - injection Hfn as <-. injection Hsetup as <-. injection Hslot as <-.
    destruct (Hkeep blink_setup_keeps_header) as (Hp1 & Hf1 & _).
    exists t0, (blink_setup (program_msg 1 0) t0).2. auto 10.
Defined.

(** The tick frees the finished tracker of output 1 and does not step it. *)
Lemma run_releases_done_witness :
  exists updated w' evs,
    run w0 = (Ok updated, w') /\
    trace w' = trace w0 ++ evs /\
    EvFreeTracker 1 ∈ evs /\
    trackers (manager (handler w')) !! 1%nat = Some None.
Proof.
  destruct (run_releases_done 1 finished w0) as (u & w' & evs & Hrun & Ht & _ & Hf & Hs).
  - exact pm0_can_run.
  - simpl. lia.
  - reflexivity.
  - vm_compute. discriminate.
  - exists u, w', evs. auto.
Defined.

(** C3. An output index equal to [num_outputs] passes the test of
    [handle_msg].  With arrays of [num_outputs] entries the descriptor is
    then read outside the array of outputs; with a descriptor left in a
    longer array, a tracker is installed beyond the outputs. *)
Lemma handle_msg_accepts_index_num_outputs :
  oh_output (mp_hdr (program_msg 1 2)) = num_outputs (manager (handler w0)) /\
  handle_msg (program_msg 1 2) w0 = (Fault OutOfBounds, w0) /\
  num_outputs (manager (handler w_spare)) = 2 /\
  trackers (manager (handler w_spare)) !! 2%nat = Some None /\
  (handle_msg (program_msg 1 2) w_spare).1 = Ok true /\
  trackers (manager (handler (handle_msg (program_msg 1 2) w_spare).2)) !! 2%nat =
    Some (Some {| pt_program := 1; pt_flags := 0; pt_state := Some [1; 2; 3] |}) /\
  trace (handle_msg (program_msg 1 2) w_spare).2 =
    [EvMalloc 2;
     EvSetup 1 (program_msg 1 2) 2
       {| pt_program := 1; pt_flags := 0; pt_state := Some [170] |}].
Proof. vm_compute. repeat split. Qed.

(** C4, against the statement as it was. A message for another node that
    arrives on socket 0 is transmitted nowhere, and a broadcast poll that
    arrives there is answered on socket 0 and not transmitted on socket 1. *)
Lemma check_socket_does_not_forward :
  check_socket (Some (msg_to 1 0 5)) (Some 0%nat) (Some 0%nat) config0 w0 = (Ok false, w0) /\
  trace (check_socket (Some (msg_to 2 0 65535)) (Some 0%nat) (Some 0%nat) config0 w0).2
    = [EvDelay 6; EvSendMsgTo 0 3 [3; 3]] /\
  sends_on 1
    (trace (check_socket (Some (msg_to 2 0 65535)) (Some 0%nat) (Some 0%nat) config0 w0).2)
    = [].
Proof. vm_compute. repeat split. Qed.

(** A message for node 5 from the serial port goes out once on socket 1,
    whose buffer holds it, and not on socket 0, whose buffer does not.  A
    broadcast output message that arrives on socket 0 is dispatched: the
    program manager is given its program message. *)
Lemma serial_message_forwarded_once_witness :
  (exists evs,
     trace (check_serial (Some (msg_to 1 0 5)) 8 100 config0 w0).2 = trace w0 ++ evs /\
     sends_on 1 evs = [(5, [252; 0; 2; 8; 1; 0; 5; 0])] /\
     sends_on 0 evs = []) /\
  check_socket (Some (msg_to 1 0 65535)) (Some 0%nat) (Some 0%nat) config0 w0 =
    (Ok true, (handle_msg (program_msg 1 0) w0).2).
Proof.
  split.
  - destruct (serial_message_forwarded_once (msg_to 1 0 5) 8 100 config0 w0)
      as ((evs & Ht & Hs) & _).
    + unfold in_buffer. simpl. lia.
    + unfold sockets_covered. simpl. lia.
    + left. simpl. lia.
    + exists evs. split; [exact Ht |]. split.
      * exact (Hs 1%nat).
      * exact (Hs 0%nat).
  - destruct (serial_message_forwarded_once (msg_to 1 0 65535) 8 100 config0 w0)
      as (_ & _ & Hbus & _).
    + unfold in_buffer. simpl. lia.
    + unfold sockets_covered. simpl. lia.
    + right. reflexivity.
    + rewrite Hbus by reflexivity. reflexivity.
Defined.

(** C5, against the statement as it was. A message with the ACK flag for
    node 5 is not written to the serial port by [process_msg]; received on
    the serial port, it is forwarded to the bus and leaves nothing but the
    acknowledgement on the serial port. *)
Lemma ack_for_other_node_not_echoed :
  process_msg (msg_to 1 1 5) (Some 0%nat) (Some 0%nat) config0 w0 = (Ok false, w0) /\
  trace (check_serial (Some (msg_to 1 1 5)) 8 100 config0 w0).2 =
    [EvSerialPrintln "ok";
     EvDebugValue "Message larger than send buffer:" 8;
     EvSendMsgTo 1 5 [252; 0; 2; 8; 1; 1; 5; 0]].
Proof. vm_compute. repeat split. Qed.

(** A poll response (ACK set) for this node, address 3, is written to the
    serial port, and nothing else happens. *)
Lemma process_msg_ack_rule_witness :
  process_msg (msg_to 2 1 3) (Some 0%nat) (Some 0%nat) config0 w0 =
    (Ok false, logged [EvSerialWrite [252; 0; 2; 8; 2; 1; 3; 0]] w0).
Proof.
  refine (process_msg_ack_rule (msg_to 2 1 3) (Some 0%nat) (Some 0%nat) config0 w0 _ _ _).
  - reflexivity.
  - vm_compute. discriminate.
  - vm_compute. discriminate.
Defined.

(** C6, against the statement as it was. A message of the type NONE for
    output 1, which holds a tracker, is refused and the tracker stays: when
    the output has no descriptor, and when the table has no entry for
    NONE. *)
Lemma none_refused_tracker_kept :
  handle_msg (program_msg 0 1) w_unplugged =
    (Ok false, logged [EvDebugValue "handle_msg: NULL output: " 1] w_unplugged) /\
  trackers (manager (handler w_unplugged)) !! 1%nat = Some (Some finished) /\
  handle_msg (program_msg 0 1) w_bare =
    (Ok false, logged [EvDebugValue "handle_msg: invalid type: " 0] w_bare) /\
  trackers (manager (handler w_bare)) !! 1%nat = Some (Some finished).
Proof. vm_compute. repeat split. Qed.

(** The finished program of output 1 is cleared. *)
Lemma handle_msg_none_releases_witness :
  exists w',
    handle_msg (program_msg 0 1) w0 = (Ok true, w') /\
    trackers (manager (handler w')) !! 1%nat = Some None /\
    trace w' = [EvFreeState 1; EvFreeTracker 1].
Proof.
  destruct (handle_msg_none_releases (program_msg 0 1) 0 out1 (Some finished) w0)
    as (w' & Hrun & _ & Hs & Ht).
  - simpl. lia.
  - reflexivity.
  - reflexivity.
  - reflexivity.
  - reflexivity.
  - exists w'. auto.
Defined.

(** A message of eight bytes does not go into the four bytes of socket 0. *)
Lemma check_and_forward_guard_witness :
  exists evs,
    check_and_forward (msg_to 1 0 5) (Some 0%nat) w0 = (Ok false, logged evs w0) /\
    evs = [EvDebugValue "Message larger than send buffer:" 8].
Proof.
  destruct (proj1 (check_and_forward_guard (msg_to 1 0 5) 0 sock0 w0 eq_refl))
    as (evs & Hrun & _ & Hev).
  - simpl. lia.
  - exists evs. split; [exact Hrun | exact (Hev eq_refl)].
Defined.

(** C8, against the statement as it was. A broadcast poll from the serial
    port is answered without a delay; and with the 16-bit [int] of this
    build the delay of address 32768 is below that of address 1. *)
Lemma serial_broadcast_poll_not_delayed :
  (process_msg (msg_to 2 0 65535) None (Some 0%nat) config0 w0).1 = Ok false /\
  trace (process_msg (msg_to 2 0 65535) None (Some 0%nat) config0 w0).2
    = [EvSerialWrite [0; 3]] /\
  delayMs 1 = 2 /\ delayMs 32768 = 0.
Proof. vm_compute. repeat split. Qed.

(** A broadcast poll on socket 0 is answered there after 6 ms, twice the
    address 3. *)
Lemma bus_broadcast_poll_delayed_witness :
  trace (process_msg (msg_to 2 0 65535) (Some 0%nat) (Some 0%nat) config0 w0).2
    = [EvDelay (delayMs 3); EvSendMsgTo 0 3 [3; 3]] /\
  delayMs 3 = 6.
Proof.
  destruct (bus_broadcast_poll_delayed (msg_to 2 0 65535) config0 w0)
    as (Hbus & _ & Hexact & _).
  - split; [reflexivity | left; reflexivity].
  - reflexivity.
  - split.
    + exact (proj2 (Hbus 0%nat sock0 (Some 0%nat) eq_refl)).
    + apply Hexact; simpl; lia.
Defined.

(** Type 33 is not in the table; type 32 is. *)
Lemma run_program_unchecked_lookup_witness :
  run_program 33 (Some [1]) w0 = (Fault NullPointer, w0) /\
  run_program 32 (Some [1]) w0 = (Ok false, logged [EvStep 2 None (Some [1])] w0).
Proof.
  split.
  - exact (proj1 (run_program_unchecked_lookup 33 (Some [1]) w0) eq_refl).
  - exact (proj1 (proj2 (run_program_unchecked_lookup 32 (Some [1]) w0))
             2%nat sensor_program sensor_step eq_refl eq_refl eq_refl).
Defined.

(** A broadcast set-address message for any device, from the serial port. *)
Lemma set_addr_needs_source_socket_witness :
  process_msg (msg_to 3 0 65535) None (Some 0%nat) config0 w0 =
    (Fault NullPointer, with_handler (set_address 7 (handler w0)) w0) /\
  (check_serial (Some (msg_to 3 0 65535)) 8 100 config0 w0).1 = Fault NullPointer.
Proof.
  destruct (set_addr_needs_source_socket (msg_to 3 0 65535) config0 8 100 w0)
    as (Hnull & Hserial & _).
  - split; [reflexivity | left; reflexivity].
  - reflexivity.
  - left. reflexivity.
  - split.
    + exact (Hnull (Some 0%nat)).
    + apply Hserial.
      * unfold in_buffer. simpl. lia.
      * unfold sockets_covered. simpl. lia.
      * simpl. lia.
Defined.

(** Output 5 does not exist. *)
Lemma handle_msg_rejects_witness :
  exists s v, handle_msg (program_msg 1 5) w0 = (Ok false, logged [EvDebugValue s v] w0).
Proof.
  apply (handle_msg_rejects (program_msg 1 5) w0).
  - simpl. lia.
  - reflexivity.
  - left. simpl. lia.
Defined.

(** A message for node 5 on socket 0. *)
Lemma process_msg_ignores_other_address_witness :
  process_msg (msg_to 1 0 5) (Some 0%nat) (Some 0%nat) config0 w0 = (Ok false, w0).
Proof.
  apply (process_msg_ignores_other_address (msg_to 1 0 5)).
  - reflexivity.
  - vm_compute. discriminate.
  - vm_compute. discriminate.
Defined.

(** ** More of the sample node *)

(** The sensor program is the third entry of the table; no entry has the
    type 33. *)
Lemma lookup_function_first_match_witness :
  lookup_function 32 pm0 = Ok (Some 2%nat) /\
  exists r, lookup_function 33 pm0 = Ok r /\
    match r with
    | Some p =>
        Z.of_nat p < num_programs pm0 /\
        (exists entry, functions pm0 !! p = Some entry /\ prog_type entry = 33) /\
        forall q entry, (q < p)%nat -> functions pm0 !! q = Some entry ->
                        prog_type entry <> 33
    | None =>
        forall q entry, Z.of_nat q < num_programs pm0 ->
                        functions pm0 !! q = Some entry -> prog_type entry <> 33
    end.
Proof.
  split; [reflexivity |].
  apply (lookup_function_first_match 33 pm0). simpl. lia.
Defined.

(** No program has the type 9. *)
Lemma handle_msg_failure_keeps_state_witness :
  exists s v, (handle_msg (program_msg 9 0) w0).2 = logged [EvDebugValue s v] w0.
Proof.
  apply (handle_msg_failure_keeps_state (program_msg 9 0) w0). reflexivity.
Defined.

(** The tick of the sample node steps output 0 and frees the tracker of
    output 1. *)
Lemma run_steps_each_live_tracker_once_witness :
  exists w',
    run w0 = (Ok true, w') /\
    trace w' = [EvStep 1 (Some 0) None; EvFreeState 1; EvFreeTracker 1] /\
    trackers (manager (handler w')) !! 0%nat = Some (Some running) /\
    trackers (manager (handler w')) !! 1%nat = Some None.
Proof.
  destruct (run_steps_each_live_tracker_once w0 pm0_can_run) as
    (w' & Hrun & Ht & _ & _ & _ & Hs); [simpl; lia |].
  exists w'. split_and!.
  - exact Hrun.
  - exact Ht.
  - exact (Hs 0 ltac:(lia)).
  - exact (Hs 1 ltac:(lia)).
Defined.

(** The finished tracker of output 1 is freed once. *)
Lemma free_tracker_idempotent_witness :
  exists w1,
    free_tracker 1 w0 = (Ok tt, w1) /\
    trackers (manager (handler w1)) !! 1%nat = Some None /\
    trace w1 = [EvFreeState 1; EvFreeTracker 1] /\
    free_tracker 1 w1 = (Ok tt, w1).
Proof.
  apply (free_tracker_idempotent 1 (Some finished) w0); [lia | reflexivity].
Defined.

(** A manager for two outputs over an array of three trackers that was
    not cleared, and one for four outputs over the same array. *)
Lemma new_ProgramManager_has_no_trackers_witness :
  (exists pm,
     new_ProgramManager [Some out0; Some out1; None]
       [Some running; Some finished; Some running] [None; None; None] 2 table 3 = Ok pm /\
     trackers pm !! 0%nat = Some None /\ trackers pm !! 1%nat = Some None /\
     trackers pm !! 2%nat = Some (Some running) /\
     run (with_handler (set_manager pm mh0) w0) =
       (Ok false, with_handler (set_manager pm mh0) w0)) /\
  new_ProgramManager [Some out0; Some out1; None]
    [Some running; Some finished; Some running] [None; None; None] 4 table 3
    = Fault OutOfBounds.
Proof.
  split.
  - destruct (proj1 (new_ProgramManager_has_no_trackers [Some out0; Some out1; None]
                       [Some running; Some finished; Some running] [None; None; None]
                       2 table 3))
      as (pm & Hnew & _ & _ & _ & _ & _ & _ & Hk & Hrun); [simpl; lia |].
    exists pm. split_and!; [exact Hnew | exact (Hk 0%nat) | exact (Hk 1%nat)
                           | exact (Hk 2%nat) | apply Hrun].
  - apply (proj2 (new_ProgramManager_has_no_trackers [Some out0; Some out1; None]
                    [Some running; Some finished; Some running] [None; None; None]
                    4 table 3)).
    simpl. lia.
Defined.

(** A second [free] for a slot, and a [malloc] for a slot that holds a
    tracker, are out of turn. *)
Lemma replay_out_of_turn :
  replay 1 true [EvFreeState 1; EvFreeTracker 1; EvFreeTracker 1] = None /\
  replay 1 true [EvMalloc 1] = None /\
  replay 1 true [EvFreeTracker 0; EvFreeTracker 1; EvMalloc 1] = Some true.
Proof. repeat split. Qed.

(** The tick of the sample node frees the tracker of output 1, which it
    held, and leaves the one of output 0. *)
Lemma trackers_allocated_and_freed_in_turn_witness :
  exists evs,
    trace (run w0).2 = trace w0 ++ evs /\
    replay 1 true evs = Some false /\
    replay 0 true evs = Some true.
Proof.
  destruct (proj1 (proj2 (trackers_allocated_and_freed_in_turn None 0 0
                            (fun _ => None) config0 (program_msg 1 0))) w0)
    as (evs & Ht & Hr).
  exists evs. split; [exact Ht |]. split; [exact (Hr 1) | exact (Hr 0)].
Defined.

(** Output 0 is given a blink program, and the next tick steps it. *)
Lemma assigned_program_stepped_next_tick_witness :
  exists updated w'' evs,
    run (handle_msg (program_msg 1 0) w0).2 = (Ok updated, w'') /\
    trace w'' = trace (handle_msg (program_msg 1 0) w0).2 ++ evs /\
    EvStep 1 (Some 0) None ∈ evs.
Proof.
  refine (assigned_program_stepped_next_tick (program_msg 1 0) 1 w0
            (handle_msg (program_msg 1 0) w0).2 _ _ _ _ _ _).
  - reflexivity.
  - reflexivity.
  - vm_compute. discriminate.
  - intros entry f [= <-] [= <-]. exact blink_setup_keeps_header.
  - simpl. lia.
  - intros k Hk. simpl in Hk.
    assert (Hcase : k = 0 \/ k = 1) by lia.
    destruct Hcase as [-> | ->]; simpl; split_and!; eauto.
    + eexists. split; [reflexivity |].
      intros t [= <-] _. exists blink_program, blink_step. split; reflexivity.
    + exists (Some finished). split; [reflexivity |].
      intros t [= <-] Hd. vm_compute in Hd. discriminate.
Defined.

(** A poll for this node, from the serial port. *)
Lemma own_message_stays_off_the_bus_witness :
  exists evs,
    trace (check_serial (Some (msg_to 2 0 3)) 8 100 config0 w0).2 = trace w0 ++ evs /\
    forall k, sends_on k evs = [].
Proof.
  apply (own_message_stays_off_the_bus (msg_to 2 0 3) 8 100 config0 w0).
  - unfold sockets_covered. simpl. lia.
  - reflexivity.
  - vm_compute. discriminate.
Defined.

(** A message of version 1, from socket 0 and from the serial port. *)
Lemma bad_version_not_processed_witness :
  check_socket (Some old_version_msg) (Some 0%nat) (Some 0%nat) config0 w0 =
    (Ok false, logged [EvDebugErr "Invalid message version"] w0) /\
  exists w',
    check_serial (Some old_version_msg) 8 100 config0 w0 = (Ok false, w') /\
    manager (handler w') = manager (handler w0) /\
    address (handler w') = address (handler w0) /\
    last_serial_ms (handler w') = 100 /\
    serial_msg_offset (handler w') = 0.
Proof.
  destruct (bad_version_not_processed old_version_msg config0 8 100 w0) as [Hs Hq].
  - vm_compute. discriminate.
  - split; [apply Hs |]. apply Hq.
    + unfold in_buffer. simpl. lia.
    + unfold sockets_covered. simpl. lia.
    + simpl. lia.
Defined.

(** A program message for output 5, which does not exist: the manager
    refuses it, and the handler reports an update. *)
Lemma output_message_reports_update_witness :
  handle_msg (program_msg 1 5) w0 =
    (Ok false, logged [EvDebugValue "handle_msg: invalid output: " 5] w0) /\
  process_msg (output_msg 1 5) (Some 0%nat) (Some 0%nat) config0 w0 =
    (Ok true, logged [EvDebugValue "handle_msg: invalid output: " 5] w0).
Proof.
  split; [reflexivity |].
  refine (output_message_reports_update (output_msg 1 5) (Some 0%nat) (Some 0%nat)
            config0 w0 _ _).
  - split; [reflexivity |]. right. split; reflexivity.
  - reflexivity.
Defined.

(** An output message for this node. *)
Lemma update_only_for_output_messages_witness :
  hdr_version (msg_hdr (output_msg 1 0)) = HMTL_MSG_VERSION /\
  (hdr_address (msg_hdr (output_msg 1 0)) = address (handler w0) \/
   hdr_address (msg_hdr (output_msg 1 0)) = SOCKET_ADDR_ANY) /\
  hdr_type (msg_hdr (output_msg 1 0)) = MSG_TYPE_OUTPUT.
Proof.
  apply (update_only_for_output_messages (output_msg 1 0) (Some 0%nat) (Some 0%nat)
           config0 w0
           (process_msg (output_msg 1 0) (Some 0%nat) (Some 0%nat) config0 w0).2).
  reflexivity.
Defined.

(** Three bytes of a message have arrived on the serial port, and
    nothing on the sockets. *)
Lemma idle_check_moves_offset_only_witness :
  check None 3 100 (fun _ => None) config0 w0 =
    (Ok false, with_handler (set_serial_msg_offset 3 mh0) w0).
Proof.
  apply (idle_check_moves_offset_only 3 100 config0 w0).
  unfold sockets_covered. simpl. lia.
Defined.

(** The ready line is printed at 6000 ms and not again at 6500 ms. *)
Lemma serial_ready_rate_limited_witness :
  exists w1,
    serial_ready 6000 w0 = (Ok tt, w1) /\
    trace w1 = [EvSerialPrintln "ready"] /\
    serial_ready 6500 w1 = (Ok tt, w1).
Proof.
  destruct (serial_ready_rate_limited 6000 6500 w0) as (w1 & Hr & Hcase).
  - vm_compute. discriminate.
  - exists w1. split; [exact Hr |].
    injection Hr as <-.
    destruct Hcase as [Hq | (Ht & _ & Hn)]; [discriminate Hq |].
    split; [exact Ht | exact Hn].
Defined.

(** A poll arrives on the serial port at 100 ms; at 200 ms no ready line is
    printed. *)
Lemma serial_ready_waits_after_message_witness :
  last_serial_ms (handler (check_serial (Some (msg_to 2 0 3)) 8 100 config0 w0).2) = 100 /\
  serial_ready 200 (check_serial (Some (msg_to 2 0 3)) 8 100 config0 w0).2 =
    (Ok tt, (check_serial (Some (msg_to 2 0 3)) 8 100 config0 w0).2).
Proof.
  apply (serial_ready_waits_after_message (msg_to 2 0 3) 8 100 200 config0 false w0).
  - reflexivity.
  - vm_compute. discriminate.
Defined.

(** A broadcast sensor message with the ACK flag and one reading. *)
Lemma sensor_readings_dispatched_witness :
  process_msg (msg_to 4 1 65535) (Some 0%nat) (Some 0%nat) config0 w0 =
    (Ok false, logged [EvStep 2 None (Some [5])] w0) /\
  process_msg (msg_to 4 0 65535) (Some 0%nat) (Some 0%nat) config0 w0 = (Ok false, w0).
Proof.
  split.
  - destruct (sensor_readings_dispatched (msg_to 4 1 65535) (Some 0%nat) (Some 0%nat)
                config0 w0) as [_ Hack];
      [reflexivity | left; reflexivity | reflexivity |].
    destruct Hack as [Hreg _]; [vm_compute; discriminate |].
    exact (Hreg 2%nat sensor_program sensor_step eq_refl eq_refl eq_refl).
  - destruct (sensor_readings_dispatched (msg_to 4 0 65535) (Some 0%nat) (Some 0%nat)
                config0 w0) as [Hno _];
      [reflexivity | left; reflexivity | reflexivity |].
    apply Hno. reflexivity.
Defined.

(** A set-address message for all nodes and any device arrives on socket
    0: the node has address 7 from then on, answers a poll for 7 and
    ignores one for 3.  A set-address message for device 5 changes
    nothing. *)
Lemma set_addr_changes_the_filter_witness :
  (exists w1,
     process_msg (msg_to 3 0 65535) (Some 0%nat) (Some 0%nat) config0 w0 = (Ok false, w1) /\
     address (handler w1) = 7 /\
     process_msg (msg_to 2 0 3) (Some 0%nat) (Some 0%nat) config0 w1 = (Ok false, w1) /\
     exists data,
       trace (process_msg (msg_to 2 0 7) (Some 0%nat) (Some 0%nat) config0 w1).2 =
         [EvSendMsgTo 0 7 data]) /\
  process_msg (set_addr_for 5) (Some 0%nat) (Some 0%nat) config0 w0 = (Ok false, w0).
Proof.
  split.
  - destruct (set_addr_changes_the_filter (msg_to 3 0 65535) 0 sock0 (Some 0%nat)
                config0 w0) as [Hset _].
    + split; [reflexivity | left; reflexivity].
    + reflexivity.
    + reflexivity.
    + destruct Hset as (w1 & Hrun & Ha & _ & _ & Ht & Hother & Hpoll);
        [left; reflexivity |].
      exists w1. split_and!; [exact Hrun | exact Ha | |].
      * apply Hother; [reflexivity | vm_compute; discriminate | vm_compute; discriminate].
      * destruct (Hpoll (msg_to 2 0 7) (Some 0%nat)) as (data & Hd);
          [reflexivity | reflexivity | reflexivity | reflexivity |].
        exists data. rewrite Hd, Ht. reflexivity.
  - destruct (set_addr_changes_the_filter (set_addr_for 5) 0 sock0 (Some 0%nat)
                config0 w0) as [_ Hno].
    + split; [reflexivity | left; reflexivity].
    + reflexivity.
    + reflexivity.
    + apply Hno; vm_compute; discriminate.
Defined.

(** The sample node is as the constructor leaves it: at 4000 ms nothing is
    printed, at 6000 ms the ready line. *)
Lemma fresh_handler_announces_ready_witness :
  serial_ready 4000 w0 = (Ok tt, w0) /\
  serial_ready 6000 w0 =
    (Ok tt, logged [EvSerialPrintln "ready"] (with_handler (set_last_ready_ms 6000 mh0) w0)).
Proof.
  split.
  - refine (fresh_handler_announces_ready 3 pm0 [Some sock0; Some sock1] 2 4000 w0 _ _);
      [reflexivity | vm_compute; split; [discriminate | reflexivity]].
  - refine (fresh_handler_announces_ready 3 pm0 [Some sock0; Some sock1] 2 6000 w0 _ _);
      [reflexivity | vm_compute; split; [discriminate | reflexivity]].
Defined.

(** An output message for this node on the serial port, and a poll on
    socket 1. *)
Lemma check_reports_serial_update_witness :
  (check (Some (output_msg 1 0)) 8 100
     (fun i => if i =? 1 then Some (msg_to 2 0 3) else None) config0 w0).1 = Ok true.
Proof.
  destruct (check_reports_serial_update (Some (output_msg 1 0)) 8 100
              (fun i => if i =? 1 then Some (msg_to 2 0 3) else None) config0 w0
              (check_serial (Some (output_msg 1 0)) 8 100 config0 w0).2)
    as [Hok | [f Hf]]; [reflexivity | exact Hok | vm_compute in Hf; discriminate Hf].
Defined.

(** An output message for this node on socket 1, and nothing else. *)
Lemma check_reports_socket_update_witness :
  (check None 0 100 (fun i => if i =? 1 then Some (output_msg 1 0) else None)
     config0 w0).1 = Ok true.
Proof.
  destruct (check_reports_socket_update 1 sock1 (output_msg 1 0) 0 100
              (fun i => if i =? 1 then Some (output_msg 1 0) else None) config0 w0
              (process_msg (output_msg 1 0) (Some 1%nat) (Some 1%nat) config0
                 (after_read 0 w0)).2)
    as [Hok | [f Hf]].
  - unfold sockets_covered. simpl. lia.
  - simpl. lia.
  - reflexivity.
  - intros j Hj. assert (j = 0) as -> by lia. reflexivity.
  - reflexivity.
  - reflexivity.
  - exact Hok.
  - vm_compute in Hf. discriminate Hf.
Defined.
